(** * SalesInsights: the month-scoped aggregation service of [app.js]

    A shallow embedding of the Express handlers of [app.js] and of the SQL
    they send to SQLite, followed by the properties of the service.

    Conventions of the embedding.
    - A [REAL] price is the rational number the stored double denotes;
      comparisons against the integer literals of the [CASE] expression are
      exact on doubles, so nothing is lost there.  Rounding inside
      [SUM(price)] is not represented: the value of [totalSaleAmount] is
      stated only for prices whose sums doubles hold exactly.
    - The columns the queries read ([price], [category], [sold],
      [dateOfSale]) are nullable, as the schema declares them; [id] is the
      [INTEGER PRIMARY KEY] and is always an integer.  That a record of
      the feed gets stored is stated only for ids that are safe integers,
      which JavaScript holds exactly and SQLite takes as rowids.
    - A handler returns its HTTP response together with the list of
      statements it handed to the database handle, so that "no store
      access" is the empty list. *)

From Stdlib Require Import ZArith QArith Bool List String Ascii Lia.
From Stdlib Require Import Permutation DecimalString DecimalPos Sorted Lqa.
Import ListNotations.

Local Open Scope string_scope.
Local Open Scope list_scope.
Local Open Scope Z_scope.

(** ** SQL values and the [products] table *)

Module Sql.

(** Result codes the handlers can meet. *)
Inductive Error : Type :=
| SQLITE_ERROR       (* no such table: products *)
| SQLITE_CONSTRAINT  (* UNIQUE constraint failed: products.id *)
| SQLITE_MISUSE.     (* Database is closed *)

(** [x <= y] and [x < y] on non-NULL reals. *)
Definition le (x y : Q) : bool := Qle_bool x y.
Definition lt (x y : Q) : bool := negb (Qle_bool y x).

(** [CASE WHEN c1 THEN l1 ... ELSE e END]: the first clause whose
    condition is true gives the value. *)
Fixpoint case_when {A B : Type} (clauses : list ((A -> bool) * B))
         (x : A) (else_ : B) : B :=
  match clauses with
  | [] => else_
  | (cond, value) :: rest =>
      if cond x then value else case_when rest x else_
  end.

(** [SUM(e)]: NULL inputs are skipped, and the result is NULL when no
    non-NULL input is left (in particular over no rows at all). *)
Fixpoint sum {A : Type} (add : A -> A -> A) (acc : option A)
         (xs : list (option A)) : option A :=
  match xs with
  | [] => acc
  | None :: rest => sum add acc rest
  | Some x :: rest =>
      sum add (Some (match acc with None => x | Some a => add a x end)) rest
  end.

(** [COUNT( * )]. *)
Definition count {A : Type} (rows : list A) : Z := Z.of_nat (List.length rows).

(** One step of [GROUP BY key] with [COUNT( * )]: the groups are kept in
    ascending key order, which is the order SQLite's sorter emits them. *)
Fixpoint bump {K : Type} (eqb ltb : K -> K -> bool) (k : K)
         (groups : list (K * Z)) : list (K * Z) :=
  match groups with
  | [] => [(k, 1)]
  | (k', n) :: rest =>
      if eqb k k' then (k', n + 1) :: rest
      else if ltb k k' then (k, 1) :: groups
      else (k', n) :: bump eqb ltb k rest
  end.

Definition group_count {K : Type} (eqb ltb : K -> K -> bool)
           (keys : list K) : list (K * Z) :=
  fold_left (fun groups k => bump eqb ltb k groups) keys [].

(** Comparison of nullable text: NULL sorts before every string, strings
    compare bytewise (the BINARY collation). *)
Definition text_eqb (a b : option string) : bool :=
  match a, b with
  | None, None => true
  | Some x, Some y => String.eqb x y
  | _, _ => false
  end.

Definition text_ltb (a b : option string) : bool :=
  match a, b with
  | None, Some _ => true
  | Some x, Some y => String.ltb x y
  | _, _ => false
  end.

End Sql.

(** ** SQLite's date functions, as far as [strftime('%m', ...)] needs them

    The parser and the Julian-day arithmetic of SQLite's [date.c], for the
    text forms [YYYY-MM-DD], [YYYY-MM-DD HH:MM[:SS[.FFF]]] (with [T] or
    blanks as separator) and [HH:MM[:SS[.FFF]]], each with an optional
    zone [Z] or [+HH:MM] / [-HH:MM].  The forms that need the clock
    (['now']) or denote a bare Julian-day number are outside this module:
    it answers NULL on them, where SQLite yields a month, so a statement
    that depends on the value of [strftime_m] is made for the text forms
    above only. *)

Module Sqlite.

Definition is_space (c : ascii) : bool :=
  let n := Z.of_nat (nat_of_ascii c) in
  (n =? 32) || ((9 <=? n) && (n <=? 13)).

Definition digit (c : ascii) : option Z :=
  let n := Z.of_nat (nat_of_ascii c) in
  if (48 <=? n) && (n <=? 57) then Some (n - 48) else None.

(** [getDigits] for one field: exactly [n] digits, value in [lo..hi]. *)
Fixpoint get_digits (n : nat) (s : string) (acc : Z)
  : option (Z * string) :=
  match n with
  | O => Some (acc, s)
  | S n' =>
      match s with
      | String c rest =>
          match digit c with
          | Some d => get_digits n' rest (acc * 10 + d)
          | None => None
          end
      | EmptyString => None
      end
  end.

Definition field (n : nat) (lo hi : Z) (s : string)
  : option (Z * string) :=
  match get_digits n s 0 with
  | Some (v, rest) =>
      if (lo <=? v) && (v <=? hi) then Some (v, rest) else None
  | None => None
  end.

Definition expect (c : ascii) (s : string) : option string :=
  match s with
  | String c' rest => if Ascii.eqb c c' then Some rest else None
  | EmptyString => None
  end.

Fixpoint skip (p : ascii -> bool) (s : string) : string :=
  match s with
  | String c rest => if p c then skip p rest else s
  | EmptyString => s
  end.

(** A parsed date-time: the calendar date, the time of day in
    milliseconds when one was given, and the zone offset in minutes. *)
Record DateTime : Type := mkDateTime {
  Y : Z; M : Z; D : Z;
  hms : option Z;
  tz : Z
}.

(** [parseTimezone]: the zone offset in minutes; the rest of the string
    may only hold blanks. *)
Definition parseTimezone (s : string) : option Z :=
  let s := skip is_space s in
  let zulu (offset : Z) (rest : string) :=
    match skip is_space rest with
    | EmptyString => Some offset
    | _ => None
    end in
  let offset (sgn : Z) (rest : string) :=
    match field 2 0 14 rest with
    | Some (nHr, rest) =>
        match expect ":" rest with
        | Some rest =>
            match field 2 0 59 rest with
            | Some (nMn, rest) => zulu (sgn * (nMn + nHr * 60)) rest
            | None => None
            end
        | None => None
        end
    | None => None
    end in
  match s with
  | EmptyString => Some 0
  | String "-" rest => offset (-1) rest
  | String "+" rest => offset 1 rest
  | String "Z" rest => zulu 0 rest
  | String "z" rest => zulu 0 rest
  | _ => None
  end.

(** The digits after the decimal point of the seconds, as thousandths
    rounded to nearest: [(sqlite3_int64)(s*1000 + 0.5)]. *)
Fixpoint fraction (s : string) (num den : Z) : Z * Z * string :=
  match s with
  | String c rest =>
      match digit c with
      | Some d => fraction rest (num * 10 + d) (den * 10)
      | None => (num, den, s)
      end
  | EmptyString => (num, den, s)
  end.

(** [parseHhMmSs]: milliseconds since midnight and the zone offset. *)
Definition parseHhMmSs (s : string) : option (Z * Z) :=
  match field 2 0 24 s with
  | Some (h, rest) =>
      match expect ":" rest with
      | Some rest =>
          match field 2 0 59 rest with
          | Some (m, rest) =>
              let finish (ms : Z) (rest : string) :=
                match parseTimezone rest with
                | Some z => Some (h * 3600000 + m * 60000 + ms, z)
                | None => None
                end in
              match rest with
              | String ":" rest =>
                  match field 2 0 59 rest with
                  | Some (sec, rest) =>
                      match rest with
                      | String "." (String c rest') =>
                          match digit c with
                          | Some _ =>
                              let '(num, den, rest'') :=
                                fraction (String c rest') 0 1 in
                              finish
                                ((2 * (sec * den + num) * 1000 + den)
                                   / (2 * den))
                                rest''
                          | None => finish (sec * 1000) rest
                          end
                      | _ => finish (sec * 1000) rest
                      end
                  | None => None
                  end
              | _ => finish 0 rest
              end
          | None => None
          end
      | None => None
      end
  | None => None
  end.

(** [parseYyyyMmDd]. *)
Definition parseYyyyMmDd (s : string) : option DateTime :=
  let '(neg, s) :=
    match s with
    | String "-" rest => (true, rest)
    | _ => (false, s)
    end in
  match field 4 0 9999 s with
  | Some (y, rest) =>
      match expect "-" rest with
      | Some rest =>
          match field 2 1 12 rest with
          | Some (m, rest) =>
              match expect "-" rest with
              | Some rest =>
                  match field 2 1 31 rest with
                  | Some (d, rest) =>
                      let y := if neg then - y else y in
                      let rest :=
                        skip (fun c => is_space c || Ascii.eqb c "T")
                             rest in
                      match parseHhMmSs rest with
                      | Some (ms, z) =>
                          Some (mkDateTime y m d (Some ms) z)
                      | None =>
                          match rest with
                          | EmptyString =>
                              Some (mkDateTime y m d None 0)
                          | _ => None
                          end
                      end
                  | None => None
                  end
              | None => None
              end
          | None => None
          end
      | None => None
      end
  | None => None
  end.

(** [parseDateOrTime], without the ['now'] and Julian-day-number forms. *)
Definition parseDateOrTime (s : string) : option DateTime :=
  match parseYyyyMmDd s with
  | Some p => Some p
  | None =>
      match parseHhMmSs s with
      | Some (ms, z) => Some (mkDateTime 2000 1 1 (Some ms) z)
      | None => None
      end
  end.

(** [computeJD]: the Julian day in milliseconds. *)
Definition computeJD (p : DateTime) : option Z :=
  if (Y p <? -4713) || (9999 <? Y p) then None
  else
    let '(y, m) := if M p <=? 2 then (Y p - 1, M p + 12) else (Y p, M p) in
    let A := Z.quot y 100 in
    let B := 2 - A + Z.quot A 4 in
    let X1 := Z.quot (36525 * (y + 4716)) 100 in
    let X2 := Z.quot (306001 * (m + 1)) 10000 in
    let iJD := (2 * (X1 + X2 + D p + B) - 3049) * 43200000 in
    Some (match hms p with
          | Some ms => iJD + ms - tz p * 60000
          | None => iJD
          end).

Definition validJulianDay (iJD : Z) : bool :=
  (0 <=? iJD) && (iJD <=? 464269060799999).

(** [computeYMD], month component. *)
Definition month_of_JD (iJD : Z) : Z :=
  let Z0 := Z.quot (iJD + 43200000) 86400000 in
  let A := Z.quot (4 * Z0 - 7468865) 146097 in
  let A := Z0 + 1 + A - Z.quot A 4 in
  let B := A + 1524 in
  let C := Z.quot (20 * B - 2442) 7305 in
  let D := Z.quot (36525 * Z.land C 32767) 100 in
  let E := Z.quot ((B - D) * 10000) 306001 in
  if E <? 14 then E - 1 else E - 13.

Definition two_digits (n : Z) : string :=
  String (ascii_of_nat (Z.to_nat (48 + n / 10)))
    (String (ascii_of_nat (Z.to_nat (48 + n mod 10))) EmptyString).

(** [strftime('%m', value)] on a text or NULL value.  The Julian day is
    computed to see that the date is in range.  The month printed is the
    parsed one ([computeYMD] returns at once while [validYMD] is set);
    only a zone offset other than zero makes [computeJD] drop the parsed
    fields, and the month is then the one of the shifted instant. *)
Definition strftime_m (value : option string) : option string :=
  match value with
  | None => None
  | Some s =>
      match parseDateOrTime s with
      | Some p =>
          match computeJD p with
          | Some iJD =>
              if validJulianDay iJD
              then Some (two_digits
                           (if tz p =? 0 then M p else month_of_JD iJD))
              else None
          | None => None
          end
      | None => None
      end
  end.

End Sqlite.

(** ** The JavaScript built-ins the handlers call *)

Module Js.

(** WhiteSpace and LineTerminator code units below 256. *)
Definition is_white_space (c : ascii) : bool :=
  let n := Z.of_nat (nat_of_ascii c) in
  (n =? 32) || ((9 <=? n) && (n <=? 13)) || (n =? 160).

Fixpoint trim_start (s : string) : string :=
  match s with
  | String c rest => if is_white_space c then trim_start rest else s
  | EmptyString => s
  end.

(** The value of a code unit as a digit of the given radix. *)
Definition digit_value (radix : Z) (c : ascii) : option Z :=
  let n := Z.of_nat (nat_of_ascii c) in
  let v :=
    if (48 <=? n) && (n <=? 57) then Some (n - 48)
    else if (97 <=? n) && (n <=? 122) then Some (n - 87)
    else if (65 <=? n) && (n <=? 90) then Some (n - 55)
    else None in
  match v with
  | Some d => if d <? radix then Some d else None
  | None => None
  end.

(** The longest prefix of radix digits, as a number; [None] when the
    prefix is empty. *)
Fixpoint digits (radix : Z) (s : string) (acc : option Z) : option Z :=
  match s with
  | String c rest =>
      match digit_value radix c with
      | Some d =>
          digits radix rest
            (Some (match acc with None => d | Some a => a * radix + d end))
      | None => acc
      end
  | EmptyString => acc
  end.

(** [parseInt(string)] with no radix argument; [None] is NaN.  The
    result is the mathematical integer: the rounding to a double of
    values beyond 2^53 is monotone and does not change a comparison
    with 1 or 12. *)
Definition parseInt (s : string) : option Z :=
  let s := trim_start s in
  let '(sign, s) :=
    match s with
    | String "-" rest => (-1, rest)
    | String "+" rest => (1, rest)
    | _ => (1, s)
    end in
  let '(radix, s) :=
    match s with
    | String "0" (String "x" rest) => (16, rest)
    | String "0" (String "X" rest) => (16, rest)
    | _ => (10, s)
    end in
  option_map (Z.mul sign) (digits radix s None).

(** [isNaN], [<] and [>] on the result of [parseInt]; a comparison with
    NaN is false. *)
Definition isNaN (n : option Z) : bool :=
  match n with
  | None => true
  | Some _ => false
  end.

Definition lt (n : option Z) (k : Z) : bool :=
  match n with
  | None => false
  | Some x => x <? k
  end.

Definition gt (n : option Z) (k : Z) : bool :=
  match n with
  | None => false
  | Some x => x >? k
  end.

(** [Number.prototype.toString()] on an integer or NaN.  The handlers
    call it on a validated month; the digits are those JavaScript writes
    for any integer it holds exactly (up to 2^53 in size). *)
Definition toString (n : option Z) : string :=
  match n with
  | None => "NaN"
  | Some x => NilZero.string_of_int (Z.to_int x)
  end.

(** [String.prototype.padStart(targetLength, padString)]. *)
Fixpoint filler (n : nat) (padString rest : string) : string :=
  match n with
  | O => EmptyString
  | S n' =>
      match rest with
      | String c rest' => String c (filler n' padString rest')
      | EmptyString =>
          match padString with
          | String c rest' => String c (filler n' padString rest')
          | EmptyString => EmptyString
          end
      end
  end.

Definition padStart (s : string) (targetLength : nat) (padString : string)
  : string :=
  String.append
    (filler (targetLength - String.length s) padString EmptyString) s.

End Js.

(** A row of [products] (lines 24-35 of [app.js]). *)
Record Product : Type := mkProduct {
  id          : Z;
  title       : option string;
  price       : option Q;
  description : option string;
  category    : option string;
  image       : option string;
  sold        : option bool;
  dateOfSale  : option string
}.

(** The database behind the global handle [db]: whether the handle is still
    open, and the rows of [products] in rowid order ([None] while the table
    has not been created). *)
Record Db : Type := mkDb {
  handle_open : bool;
  products    : option (list Product)
}.

(** ** The three queries *)

(** The WHEN clauses of the [priceRange] expression (lines 155-166). *)
Definition priceRange_clauses : list ((Q -> bool) * string) :=
  [ (fun price => Sql.le 0 price && Sql.le price 100, "0 - 100");
    (fun price => Sql.lt 100 price && Sql.le price 200, "101 - 200");
    (fun price => Sql.lt 200 price && Sql.le price 300, "201 - 300");
    (fun price => Sql.lt 300 price && Sql.le price 400, "301 - 400");
    (fun price => Sql.lt 400 price && Sql.le price 500, "401 - 500");
    (fun price => Sql.lt 500 price && Sql.le price 600, "501 - 600");
    (fun price => Sql.lt 600 price && Sql.le price 700, "601 - 700");
    (fun price => Sql.lt 700 price && Sql.le price 800, "701 - 800");
    (fun price => Sql.lt 800 price && Sql.le price 900, "801 - 900") ].

Definition priceRange_else : string := "901-above".

(** [CASE ... END AS priceRange].  On a NULL price every comparison is
    NULL, no clause fires and the ELSE value is taken. *)
Definition priceRange (p : option Q) : string :=
  match p with
  | None => priceRange_else
  | Some x => Sql.case_when priceRange_clauses x priceRange_else
  end.

(** The row of the statistics query (lines 113-123). *)
Record StatsRow : Type := mkStats {
  totalSaleAmount  : option Q;
  totalItems       : Z;
  totalSoldItems   : option Z;
  totalUnsoldItems : option Z
}.

(** ** Responses and the statement log *)

(** The JSON bodies the routes send. *)
Inductive Body : Type :=
| ErrorBody (error : string)
| MessageBody (message : string)
| StatsBody (row : StatsRow)
| BarChartBody (rows : list (string * Z))
| PieChartBody (rows : list (option string * Z))
| CombinedBody (statistics barChart pieChart : Body).

Record Response : Type := mkResponse {
  status : Z;
  body   : Body
}.

(** What a handler hands to [db.all]: which of the three queries, and the
    bound parameter. *)
Inductive Query : Type :=
| StatisticsQuery
| BarChartQuery
| PieChartQuery.

Definition Statement : Type := (Query * string)%type.

(** [res.status(400).json({ error: ... })] of the three routes. *)
Definition invalid_month : Response :=
  {| status := 400;
     body := ErrorBody
       "Invalid month. Please provide a valid month between 1 and 12." |}.

Definition internal_server_error : Response :=
  {| status := 500; body := ErrorBody "Internal server error" |}.

Definition ok (b : Body) : Response := {| status := 200; body := b |}.

(** [db.all(query, params, callback)]: the callback receives an error when
    the handle has been closed or the table does not exist, the rows
    otherwise. *)
Definition db_all {R : Type} (query : list Product -> R) (db : Db)
  : Sql.Error + R :=
  if handle_open db then
    match products db with
    | Some table => inr (query table)
    | None => inl Sql.SQLITE_ERROR
    end
  else inl Sql.SQLITE_MISUSE.


(** [axios.get] against one of the service's own routes: the promise
    resolves with the response data on a 2xx status and rejects otherwise.
    The request is taken to reach the route with the same [month]
    parameter.  That is so when the parameter is a plain path segment
    ([plain_segment] below: letters, digits, [-], [_], [~] and [.], and
    not a dot segment); any other text is rewritten on its way through
    the URL, and nothing is stated about the combined route for it. *)
Definition axios_get (route : string -> Db -> Response * list Statement)
           (month : string) (db : Db) : option Body * list Statement :=
  let '(res, log) := route month db in
  if (200 <=? status res) && (status res <? 300) then (Some (body res), log)
  else (None, log).

Section Service.

(** SQLite's [strftime('%m', dateOfSale)]: the two-digit month of a
    date-time value, NULL when the value is NULL or is no date.  The
    queries are stated over any such function; [Sqlite.strftime_m] is the
    one for ISO-8601 text. *)
Variable strftime_m : option string -> option string.

(** [WHERE strftime('%m', dateOfSale) = ?]: a row is kept when the
    comparison is true (not when it is NULL). *)
Definition month_matches (param : string) (row : Product) : bool :=
  match strftime_m (dateOfSale row) with
  | Some m => String.eqb m param
  | None => false
  end.

Definition where_month (param : string) (table : list Product)
  : list Product :=
  filter (month_matches param) table.

(** [SUM(CASE WHEN sold = 1 THEN 1 ELSE 0 END)] and its [sold = 0] twin,
    one term per row. *)
Definition sold_term (row : Product) : option Z :=
  Some (match sold row with Some true => 1 | _ => 0 end).

Definition unsold_term (row : Product) : option Z :=
  Some (match sold row with Some false => 1 | _ => 0 end).

Definition statistics_query (param : string) (table : list Product)
  : StatsRow :=
  let rows := where_month param table in
  {| totalSaleAmount  := Sql.sum Qplus None (map price rows);
     totalItems       := Sql.count rows;
     totalSoldItems   := Sql.sum Z.add None (map sold_term rows);
     totalUnsoldItems := Sql.sum Z.add None (map unsold_term rows) |}.

(** The bar-chart query (lines 153-174): rows [(priceRange, itemCount)]. *)
Definition bar_chart_query (param : string) (table : list Product)
  : list (string * Z) :=
  Sql.group_count String.eqb String.ltb
    (map (fun row => priceRange (price row)) (where_month param table)).

(** The pie-chart query (lines 204-214): rows [(category, itemCount)]. *)
Definition pie_chart_query (param : string) (table : list Product)
  : list (option string * Z) :=
  Sql.group_count Sql.text_eqb Sql.text_ltb
    (map category (where_month param table)).

(** GET /statistics/:month (lines 100-137). *)
Definition statistics_handler (month : string) (db : Db)
  : Response * list Statement :=
  let inputMonth := Js.parseInt month in
  if Js.isNaN inputMonth || Js.lt inputMonth 1 || Js.gt inputMonth 12
  then (invalid_month, [])
  else
    let param := Js.padStart (Js.toString inputMonth) 2 "0" in
    match db_all (statistics_query param) db with
    | inl err => (internal_server_error, [(StatisticsQuery, param)])
    | inr result => (ok (StatsBody result), [(StatisticsQuery, param)])
    end.

(** GET /bar-chart/:month (lines 140-188). *)
Definition bar_chart_handler (month : string) (db : Db)
  : Response * list Statement :=
  let inputMonth := Js.parseInt month in
  if Js.isNaN inputMonth || Js.lt inputMonth 1 || Js.gt inputMonth 12
  then (invalid_month, [])
  else
    let param := Js.padStart (Js.toString inputMonth) 2 "0" in
    match db_all (bar_chart_query param) db with
    | inl err => (internal_server_error, [(BarChartQuery, param)])
    | inr result => (ok (BarChartBody result), [(BarChartQuery, param)])
    end.

(** GET /pie-chart/:month (lines 191-228). *)
Definition pie_chart_handler (month : string) (db : Db)
  : Response * list Statement :=
  let inputMonth := Js.parseInt month in
  if Js.isNaN inputMonth || Js.lt inputMonth 1 || Js.gt inputMonth 12
  then (invalid_month, [])
  else
    let param := Js.padStart (Js.toString inputMonth) 2 "0" in
    match db_all (pie_chart_query param) db with
    | inl err => (internal_server_error, [(PieChartQuery, param)])
    | inr result => (ok (PieChartBody result), [(PieChartQuery, param)])
    end.

(** GET /combined-data/:month (lines 231-265): three requests in turn,
    any rejection caught and answered with 500. *)
Definition combined_data_handler (month : string) (db : Db)
  : Response * list Statement :=
  match axios_get statistics_handler month db with
  | (None, log1) => (internal_server_error, log1)
  | (Some statisticsData, log1) =>
      match axios_get bar_chart_handler month db with
      | (None, log2) => (internal_server_error, log1 ++ log2)
      | (Some barChartData, log2) =>
          match axios_get pie_chart_handler month db with
          | (None, log3) => (internal_server_error, log1 ++ log2 ++ log3)
          | (Some pieChartData, log3) =>
              (ok (CombinedBody statisticsData barChartData pieChartData),
               log1 ++ log2 ++ log3)
          end
      end
  end.

End Service.

(** ** Ingestion *)

(** The outcome of [axios.get(apiURL)]: the request fails, or it delivers
    the array of records.  The records are listed in the order in which
    SQLite comes to execute their inserts. *)
Inductive Feed : Type :=
| FetchFailed
| Fetched (data : list Product).

Definition has_id (i : Z) (table : list Product) : bool :=
  existsb (fun row => id row =? i) table.

(** A row enters the table at its place in rowid order. *)
Fixpoint place (row : Product) (table : list Product) : list Product :=
  match table with
  | [] => [row]
  | r :: rest =>
      if id row <? id r then row :: table else r :: place row rest
  end.

(** [CREATE TABLE IF NOT EXISTS products (...)] (lines 24-35). *)
Definition createTableQuery (table : option (list Product)) : list Product :=
  match table with
  | Some rows => rows
  | None => []
  end.

(** [INSERT INTO products (...) VALUES (...)] (lines 44-47) under
    [id INTEGER PRIMARY KEY]: an id already in the table fails the
    statement and leaves the table as it was. *)
Definition insertDataQuery (table : list Product) (item : Product)
  : Sql.Error + list Product :=
  if has_id (id item) table then inl Sql.SQLITE_CONSTRAINT
  else inr (place item table).

(** The table after one insert promise has settled (lines 50-68): the
    new table when it resolves, the old one when it is rejected. *)
Definition insert_one (table : list Product) (item : Product)
  : list Product :=
  match insertDataQuery table item with
  | inr table' => table'
  | inl _ => table
  end.

(** [data.map(item => new Promise(...))] (lines 49-69): every insert is
    run, whether or not an earlier one was rejected. *)
Definition insert_all (data : list Product) (table : list Product)
  : list Product :=
  fold_left insert_one data table.

(** [initializeDatabase] (lines 15-88), by its effect on the database.
    A failed fetch is caught before anything touches the handle.  On a
    closed handle [db.run(createTableQuery)] reports an error and nothing
    is inserted.  Otherwise the table is created if absent, the inserts
    queued from the callback run, and [db.close()], which waits for the
    pending statements, closes the handle. *)
Definition initializeDatabase (feed : Feed) (db : Db) : Db :=
  match feed with
  | FetchFailed => db
  | Fetched data =>
      if handle_open db then
        {| handle_open := false;
           products :=
             Some (insert_all data (createTableQuery (products db))) |}
      else db
  end.

(** GET /initialize-database (lines 94-97). *)
Definition initialize_database_handler (feed : Feed) (db : Db)
  : Response * Db :=
  (ok (MessageBody "Database initialized with seed data"),
   initializeDatabase feed db).

(** The life of the database file: [new sqlite3.Database(dbPath)] when the
    process starts (line 12), and ingestion requests. *)
Inductive Event : Type :=
| Restart
| Ingest (feed : Feed).

Definition connect (db : Db) : Db :=
  {| handle_open := true; products := products db |}.

Definition step (db : Db) (e : Event) : Db :=
  match e with
  | Restart => connect db
  | Ingest feed => initializeDatabase feed db
  end.

Definition run (events : list Event) (db : Db) : Db :=
  fold_left step events db.

(** A database file that did not exist before the first start. *)
Definition new_database : Db :=
  {| handle_open := true; products := None |}.

Definition ids (db : Db) : list Z :=
  match products db with
  | Some table => map id table
  | None => []
  end.

(** The sum of the [itemCount] column of a grouped result. *)
Definition itemCount_total {K : Type} (rows : list (K * Z)) : Z :=
  fold_right (fun row acc => snd row + acc) 0 rows.

(** The [itemCount] a grouped result reports under key [k], taken over
    every row carrying that key. *)
Definition itemCount_of {K : Type} (eqb : K -> K -> bool) (k : K)
           (rows : list (K * Z)) : Z :=
  itemCount_total (filter (fun row => eqb k (fst row)) rows).

(** How many of the keys are [k]. *)
Definition occurrences {K : Type} (eqb : K -> K -> bool) (k : K)
           (keys : list K) : Z :=
  Z.of_nat (List.length (filter (eqb k) keys)).

(** The shape of a grouped result: keys strictly ascending (so each key
    has one row), every count at least 1. *)
Definition key_before {K : Type} (ltb : K -> K -> bool) (k : K)
           (row : K * Z) : Prop :=
  ltb k (fst row) = true.

Definition ascending_keys {K : Type} (ltb : K -> K -> bool)
  : list (K * Z) -> Prop :=
  StronglySorted (fun a b => ltb (fst a) (fst b) = true).

Definition positive_counts {K : Type} : list (K * Z) -> Prop :=
  Forall (fun row => 1 <= snd row).

(** The month the validation of lines 105-110 lets through: the value of
    [parseInt] when it is a number between 1 and 12. *)
Definition validate_month (month : string) : option Z :=
  match Js.parseInt month with
  | None => None
  | Some inputMonth =>
      if (inputMonth <? 1) || (inputMonth >? 12) then None
      else Some inputMonth
  end.

(** The parameter bound to [?] for an accepted month. *)
Definition month_param (inputMonth : Z) : string :=
  Js.padStart (Js.toString (Some inputMonth)) 2 "0".

(** The shape the three aggregation routes share: validate, run one
    query, answer. *)
Definition route {R : Type} (q : Query)
           (query : string -> list Product -> R) (to_body : R -> Body)
           (month : string) (db : Db) : Response * list Statement :=
  match validate_month month with
  | None => (invalid_month, [])
  | Some inputMonth =>
      let param := month_param inputMonth in
      match db_all (query param) db with
      | inl _ => (internal_server_error, [(q, param)])
      | inr result => (ok (to_body result), [(q, param)])
      end
  end.

(** A database the queries can read: open handle, table created. *)
Definition readable (db : Db) (table : list Product) : Prop :=
  handle_open db = true /\ products db = Some table.

(** ** Sample data

    Two March records, an electronics sale at 150 and an unsold book at
    950; the fields the queries do not read are left open. *)

Definition electronics_sale (i : Z) (t d g : option string) : Product :=
  {| id := i; title := t; price := Some (150 # 1); description := d;
     category := Some "Electronics"; image := g; sold := Some true;
     dateOfSale := Some "2024-03-05" |}.

Definition unsold_book (i : Z) (t d g : option string) : Product :=
  {| id := i; title := t; price := Some (950 # 1); description := d;
     category := Some "Books"; image := g; sold := Some false;
     dateOfSale := Some "2024-03-20" |}.

Definition march_table : list Product :=
  [ electronics_sale 1 (Some "Phone") None None;
    unsold_book 2 (Some "Atlas") None None ].

Definition march_db : Db :=
  {| handle_open := true; products := Some march_table |}.

Definition empty_db : Db :=
  {| handle_open := true; products := Some [] |}.

(** The reading of "numeric" the interface description suggests for the
    month parameter: a non-empty run of decimal digits and nothing else.
    Stated from the description, for comparison with [validate_month]. *)
Definition decimal_numeral (s : string) : bool :=
  match s with
  | EmptyString => false
  | _ => forallb (fun c => match Sqlite.digit c with
                           | Some _ => true
                           | None => false
                           end)
                 (list_ascii_of_string s)
  end.

(** The [CASE] expression read without the first-match rule: [label]
    belongs to a WHEN clause whose condition holds of the price, or it is
    the ELSE label and no condition holds. *)
Definition clause_applies (x : Q) (label : string) : Prop :=
  (exists cond, In (cond, label) priceRange_clauses /\ cond x = true)
  \/ (label = priceRange_else
      /\ forall cond l, In (cond, l) priceRange_clauses -> cond x = false).

(** A March record with a negative price. *)
Definition refund : Product :=
  {| id := 3; title := Some "Refund"; price := Some (-5 # 1);
     description := None; category := Some "Books"; image := None;
     sold := Some true; dateOfSale := Some "2024-03-09T10:00:00+05:30" |}.

(** The number of rows in the store. *)
Definition record_count (db : Db) : nat :=
  match products db with
  | Some table => List.length table
  | None => O
  end.

(** ** Vocabulary of the further properties *)

(** The ten values the [priceRange] expression can take. *)
Definition priceRange_labels : list string :=
  map snd priceRange_clauses ++ [priceRange_else].

(** How many of the rows satisfy [p]. *)
Definition count_where {A : Type} (p : A -> bool) (rows : list A) : Z :=
  Z.of_nat (List.length (filter p rows)).

(** The parameters the routes can bind: one per month. *)
Definition month_params : list string :=
  map month_param [1; 2; 3; 4; 5; 6; 7; 8; 9; 10; 11; 12].

(** The stored row with a given id. *)
Definition lookup (i : Z) (table : list Product) : option Product :=
  find (fun row => id row =? i) table.

(** The prices of the rows that have one, added up. *)
Definition price_total (rows : list Product) : Q :=
  fold_right
    (fun row acc => match price row with
                    | Some x => (x + acc)%Q
                    | None => acc
                    end)
    0%Q rows.

(** A feed of four records: one id twice, one record without a price and
    one without a sale flag. *)
Definition sample_feed : list Product :=
  [ unsold_book 2 (Some "Atlas") None None;
    {| id := 7; title := Some "Gift"; price := None; description := None;
       category := None; image := None; sold := None;
       dateOfSale := Some "2023-03-31 23:10:00" |};
    electronics_sale 1 (Some "Phone") None None;
    electronics_sale 2 (Some "Radio") None None ].

(** The three states of the [sold] column. *)
Definition is_sold (row : Product) : bool :=
  match sold row with Some true => true | _ => false end.

Definition is_unsold (row : Product) : bool :=
  match sold row with Some false => true | _ => false end.

Definition sold_unknown (row : Product) : bool :=
  match sold row with None => true | Some _ => false end.

Definition has_price (row : Product) : bool :=
  match price row with Some _ => true | None => false end.

(** A list of integers added up. *)
Definition total (xs : list Z) : Z := fold_right Z.add 0 xs.

(** The rows whose date has a month of the year, by [strftime_m]. *)
Definition has_month (strftime_m : option string -> option string)
           (row : Product) : bool :=
  match strftime_m (dateOfSale row) with
  | Some m => existsb (String.eqb m) month_params
  | None => false
  end.

(** Whether the queries can read the database, as a test. *)
Definition can_read (db : Db) : bool :=
  handle_open db && match products db with Some _ => true | None => false end.

(** Where [parseInt] stops reading a decimal number: at the end of the
    string, or at a character that is no decimal digit (and, after a
    lone "0", not the [x] of a hexadecimal prefix). *)
Definition ends_number (tail : string) : bool :=
  match tail with
  | EmptyString => true
  | String c _ =>
      match Js.digit_value 10 c with
      | Some _ => false
      | None => negb (Ascii.eqb c "x") && negb (Ascii.eqb c "X")
      end
  end.

(** Whether a string opens with the prefix [0x] or [0X]. *)
Definition hex_prefix (s : string) : bool :=
  match s with
  | String c1 (String c2 _) =>
      Ascii.eqb c1 "0" && (Ascii.eqb c2 "x" || Ascii.eqb c2 "X")
  | _ => false
  end.

(** Whether a string opens with white space or a sign. *)
Definition space_or_sign (s : string) : bool :=
  match s with
  | String c _ =>
      Js.is_white_space c || Ascii.eqb c "+" || Ascii.eqb c "-"
  | EmptyString => false
  end.

(** A month parameter that the combined route's request carries to the
    route as it is: a non-empty run of unreserved URL characters
    (letters, digits, [-], [_], [~], [.]) that is not one of the dot
    segments ["."] and [".."], of at most a thousand characters.  Such
    text is neither escaped nor normalised when it is pasted into the
    request URL, decoding it gives it back, and the request stays well
    within the size a server accepts. *)
Definition unreserved (c : ascii) : bool :=
  let n := Z.of_nat (nat_of_ascii c) in
  ((48 <=? n) && (n <=? 57)) || ((65 <=? n) && (n <=? 90))
  || ((97 <=? n) && (n <=? 122))
  || (n =? 45) || (n =? 95) || (n =? 126) || (n =? 46).

Definition plain_segment (month : string) : bool :=
  match month with
  | EmptyString => false
  | _ =>
      forallb unreserved (list_ascii_of_string month)
      && negb (String.eqb month ".") && negb (String.eqb month "..")
      && (String.length month <=? 1000)%nat
  end.

(** [Number.isSafeInteger]: the integers a JavaScript number holds
    exactly, which are also within SQLite's 64-bit rowid range. *)
Definition safe_integer (n : Z) : bool :=
  (- (2 ^ 53 - 1) <=? n) && (n <=? 2 ^ 53 - 1).

(** A feed all of whose ids are safe integers. *)
Definition ids_safe (data : list Product) : Prop :=
  Forall (fun item => safe_integer (id item) = true) data.

(** A price that is a whole number of size at most [bound], or NULL. *)
Definition whole_price (bound : Z) (row : Product) : Prop :=
  match price row with
  | Some x => exists k, x = inject_Z k /\ Z.abs k <= bound
  | None => True
  end.

(** The date-only text [YYYY-MM-DD] of a year, a month and a day. *)
Definition decimal_digit (k : Z) : ascii := ascii_of_nat (Z.to_nat (48 + k)).

Definition iso_date (y mo d : Z) : string :=
  String (decimal_digit (y / 1000))
    (String (decimal_digit (y / 100 mod 10))
       (String (decimal_digit (y / 10 mod 10))
          (String (decimal_digit (y mod 10))
             (String "-"
                (String.append (Sqlite.two_digits mo)
                   (String "-" (Sqlite.two_digits d))))))).

(** The days of a month of the (proleptic Gregorian) calendar. *)
Definition leap_year (y : Z) : bool :=
  (y mod 4 =? 0) && (negb (y mod 100 =? 0) || (y mod 400 =? 0)).

Definition days_in_month (y mo : Z) : Z :=
  if mo =? 2 then (if leap_year y then 29 else 28)
  else if (mo =? 4) || (mo =? 6) || (mo =? 9) || (mo =? 11) then 30
  else 31.

(** * Properties *)

(** ** Grouping and counting *)

Section GroupCount.

Context {K : Type} (eqb ltb : K -> K -> bool).

Lemma itemCount_total_cons (k : K) (n : Z) (rows : list (K * Z)) :
  itemCount_total ((k, n) :: rows) = n + itemCount_total rows.
Proof. reflexivity. Qed.

Lemma bump_total (k : K) (groups : list (K * Z)) :
  itemCount_total (Sql.bump eqb ltb k groups) = itemCount_total groups + 1.
Proof.
  induction groups as [|[k' n] rest IH]; cbn [Sql.bump].
  - reflexivity.
  - destruct (eqb k k'); [|destruct (ltb k k')];
      rewrite !itemCount_total_cons; try rewrite IH; lia.
Qed.

Lemma fold_bump_total (keys : list K) (groups : list (K * Z)) :
  itemCount_total
    (fold_left (fun g k => Sql.bump eqb ltb k g) keys groups)
  = itemCount_total groups + Z.of_nat (List.length keys).
Proof.
  revert groups.
  induction keys as [|k keys IH]; intros groups.
  - simpl. lia.
  - cbn [fold_left List.length]. rewrite IH, bump_total. lia.
Qed.

(** The counts of the groups add up to the number of grouped rows. *)
Lemma group_count_total (keys : list K) :
  itemCount_total (Sql.group_count eqb ltb keys)
  = Z.of_nat (List.length keys).
Proof.
  unfold Sql.group_count. rewrite fold_bump_total. reflexivity.
Qed.

End GroupCount.

(** ** The routes on a readable database *)

Section Routes.

Variable strftime_m : option string -> option string.

Lemma validate_month_range (month : string) (m : Z) :
  validate_month month = Some m ->
  Js.parseInt month = Some m /\ 1 <= m <= 12.
Proof.
  unfold validate_month.
  destruct (Js.parseInt month) as [n|]; [|discriminate].
  destruct (n <? 1) eqn:Hlo; [discriminate|].
  destruct (n >? 12) eqn:Hhi; [discriminate|].
  intros H. injection H as ->.
  apply Z.ltb_ge in Hlo.
  rewrite Z.gtb_ltb in Hhi. apply Z.ltb_ge in Hhi.
  split; [reflexivity | lia].
Qed.

Lemma validate_month_accepts (month : string) (m : Z) :
  Js.parseInt month = Some m -> 1 <= m <= 12 ->
  validate_month month = Some m.
Proof.
  intros Hparse [Hlo Hhi]. unfold validate_month. rewrite Hparse.
  replace (m <? 1) with false by (symmetry; apply Z.ltb_ge; lia).
  replace (m >? 12) with false
    by (symmetry; rewrite Z.gtb_ltb; apply Z.ltb_ge; lia).
  reflexivity.
Qed.

Lemma validate_month_rejects (month : string) :
  (forall m, Js.parseInt month = Some m -> m < 1 \/ 12 < m) ->
  validate_month month = None.
Proof.
  intros H. unfold validate_month.
  destruct (Js.parseInt month) as [n|]; [|reflexivity].
  destruct (H n eq_refl) as [Hlo|Hhi].
  - replace (n <? 1) with true by (symmetry; apply Z.ltb_lt; lia).
    reflexivity.
  - replace (n >? 12) with true
      by (symmetry; rewrite Z.gtb_ltb; apply Z.ltb_lt; lia).
    rewrite orb_true_r. reflexivity.
Qed.

(** A valid month on a readable database: the route runs its query once
    and sends the result with status 200. *)
Lemma route_ok {R : Type} (q : Query)
      (query : string -> list Product -> R) (to_body : R -> Body)
      (month : string) (m : Z) (db : Db) (table : list Product) :
  validate_month month = Some m ->
  readable db table ->
  route q query to_body month db
  = (ok (to_body (query (month_param m) table)), [(q, month_param m)]).
Proof.
  intros Hvalid [Hopen Htable].
  unfold route, db_all. rewrite Hvalid, Hopen, Htable. reflexivity.
Qed.

(** A rejected month: 400, and nothing reaches the database. *)
Lemma route_invalid {R : Type} (q : Query)
      (query : string -> list Product -> R) (to_body : R -> Body)
      (month : string) (db : Db) :
  validate_month month = None ->
  route q query to_body month db = (invalid_month, []).
Proof.
  intros Hvalid. unfold route. rewrite Hvalid. reflexivity.
Qed.

Lemma statistics_handler_route (month : string) (db : Db) :
  statistics_handler strftime_m month db
  = route StatisticsQuery (statistics_query strftime_m) StatsBody month db.
Proof.
  unfold statistics_handler, route, validate_month, month_param.
  destruct (Js.parseInt month) as [n|]; cbn [Js.isNaN Js.lt Js.gt orb];
    [destruct ((n <? 1) || (n >? 12))|]; reflexivity.
Qed.

Lemma bar_chart_handler_route (month : string) (db : Db) :
  bar_chart_handler strftime_m month db
  = route BarChartQuery (bar_chart_query strftime_m) BarChartBody month db.
Proof.
  unfold bar_chart_handler, route, validate_month, month_param.
  destruct (Js.parseInt month) as [n|]; cbn [Js.isNaN Js.lt Js.gt orb];
    [destruct ((n <? 1) || (n >? 12))|]; reflexivity.
Qed.

Lemma pie_chart_handler_route (month : string) (db : Db) :
  pie_chart_handler strftime_m month db
  = route PieChartQuery (pie_chart_query strftime_m) PieChartBody month db.
Proof.
  unfold pie_chart_handler, route, validate_month, month_param.
  destruct (Js.parseInt month) as [n|]; cbn [Js.isNaN Js.lt Js.gt orb];
    [destruct ((n <? 1) || (n >? 12))|]; reflexivity.
Qed.

Lemma bar_chart_query_total (param : string) (table : list Product) :
  itemCount_total (bar_chart_query strftime_m param table)
  = totalItems (statistics_query strftime_m param table).
Proof.
  unfold bar_chart_query, statistics_query, Sql.count. cbn [totalItems].
  rewrite group_count_total, length_map. reflexivity.
Qed.

Lemma pie_chart_query_total (param : string) (table : list Product) :
  itemCount_total (pie_chart_query strftime_m param table)
  = totalItems (statistics_query strftime_m param table).
Proof.
  unfold pie_chart_query, statistics_query, Sql.count. cbn [totalItems].
  rewrite group_count_total, length_map. reflexivity.
Qed.

End Routes.

(** ** Histogram, breakdown and summary agree on the number of rows *)

(** C3.  For every table and every valid month (a parameter that parses to
    [m] with [1 <= m <= 12]), the statistics and bar-chart routes both
    answer 200 on the same database, and the [itemCount] values of the
    histogram add up to [totalItems] of the summary. *)
Theorem bar_chart_counts_sum_to_totalItems
        (strftime_m : option string -> option string)
        (table : list Product) (db : Db) (month : string) (m : Z) :
  1 <= m <= 12 ->
  Js.parseInt month = Some m ->
  readable db table ->
  exists stats rows,
    fst (statistics_handler strftime_m month db) = ok (StatsBody stats)
    /\ fst (bar_chart_handler strftime_m month db) = ok (BarChartBody rows)
    /\ itemCount_total rows = totalItems stats.
Proof.
  intros Hm Hparse Hdb.
  pose proof (validate_month_accepts month m Hparse Hm) as Hvalid.
  exists (statistics_query strftime_m (month_param m) table),
         (bar_chart_query strftime_m (month_param m) table).
  rewrite statistics_handler_route, bar_chart_handler_route.
  rewrite !(route_ok _ _ _ month m db table Hvalid Hdb).
  repeat split. apply bar_chart_query_total.
Qed.

Lemma bar_chart_counts_sum_to_totalItems_witness :
  exists stats rows,
    fst (statistics_handler Sqlite.strftime_m "3" march_db)
    = ok (StatsBody stats)
    /\ fst (bar_chart_handler Sqlite.strftime_m "3" march_db)
       = ok (BarChartBody rows)
    /\ itemCount_total rows = totalItems stats.
Proof.
  apply (bar_chart_counts_sum_to_totalItems
           Sqlite.strftime_m march_table march_db "3" 3).
  - lia.
  - reflexivity.
  - split; reflexivity.
Defined.

(** C4.  For every table and every valid month, the statistics and
    pie-chart routes both answer 200 on the same database, and the
    [itemCount] values of the category breakdown add up to [totalItems]
    of the summary. *)
Theorem pie_chart_counts_sum_to_totalItems
        (strftime_m : option string -> option string)
        (table : list Product) (db : Db) (month : string) (m : Z) :
  1 <= m <= 12 ->
  Js.parseInt month = Some m ->
  readable db table ->
  exists stats rows,
    fst (statistics_handler strftime_m month db) = ok (StatsBody stats)
    /\ fst (pie_chart_handler strftime_m month db) = ok (PieChartBody rows)
    /\ itemCount_total rows = totalItems stats.
Proof.
  intros Hm Hparse Hdb.
  pose proof (validate_month_accepts month m Hparse Hm) as Hvalid.
  exists (statistics_query strftime_m (month_param m) table),
         (pie_chart_query strftime_m (month_param m) table).
  rewrite statistics_handler_route, pie_chart_handler_route.
  rewrite !(route_ok _ _ _ month m db table Hvalid Hdb).
  repeat split. apply pie_chart_query_total.
Qed.

Lemma pie_chart_counts_sum_to_totalItems_witness :
  exists stats rows,
    fst (statistics_handler Sqlite.strftime_m "03" march_db)
    = ok (StatsBody stats)
    /\ fst (pie_chart_handler Sqlite.strftime_m "03" march_db)
       = ok (PieChartBody rows)
    /\ itemCount_total rows = totalItems stats.
Proof.
  apply (pie_chart_counts_sum_to_totalItems
           Sqlite.strftime_m march_table march_db "03" 3).
  - lia.
  - reflexivity.
  - split; reflexivity.
Defined.

(** ** The worked example *)

(** C2.  On a store holding exactly the electronics sale of 2024-03-05
    (150, sold) and the book of 2024-03-20 (950, unsold), in either row
    order and whatever the other fields, month 3 gives the summary
    (1100, 2, 1, 1), the histogram {("101 - 200", 1), ("901-above", 1)}
    and the breakdown {("Electronics", 1), ("Books", 1)}, the last two as
    unordered collections. *)
Theorem march_example
        (i1 i2 : Z) (t1 d1 g1 t2 d2 g2 : option string)
        (table : list Product) :
  Permutation table
    [electronics_sale i1 t1 d1 g1; unsold_book i2 t2 d2 g2] ->
  let db := {| handle_open := true; products := Some table |} in
  fst (statistics_handler Sqlite.strftime_m "3" db)
  = ok (StatsBody {| totalSaleAmount := Some (1100 # 1);
                     totalItems := 2;
                     totalSoldItems := Some 1;
                     totalUnsoldItems := Some 1 |})
  /\ (exists rows,
        fst (bar_chart_handler Sqlite.strftime_m "3" db)
        = ok (BarChartBody rows)
        /\ Permutation rows [("101 - 200", 1); ("901-above", 1)])
  /\ (exists rows,
        fst (pie_chart_handler Sqlite.strftime_m "3" db)
        = ok (PieChartBody rows)
        /\ Permutation rows [(Some "Electronics", 1); (Some "Books", 1)]).
Proof.
  intros Hperm db. subst db.
  apply Permutation_sym, Permutation_length_2_inv in Hperm.
  destruct Hperm as [-> | ->].
  - split; [reflexivity|]. split.
    + eexists. split; [reflexivity | apply Permutation_refl].
    + eexists. split; [reflexivity | apply perm_swap].
  - split; [reflexivity|]. split.
    + eexists. split; [reflexivity | apply Permutation_refl].
    + eexists. split; [reflexivity | apply perm_swap].
Qed.

Lemma march_example_witness :
  fst (statistics_handler Sqlite.strftime_m "3" march_db)
  = ok (StatsBody {| totalSaleAmount := Some (1100 # 1);
                     totalItems := 2;
                     totalSoldItems := Some 1;
                     totalUnsoldItems := Some 1 |})
  /\ (exists rows,
        fst (bar_chart_handler Sqlite.strftime_m "3" march_db)
        = ok (BarChartBody rows)
        /\ Permutation rows [("101 - 200", 1); ("901-above", 1)])
  /\ (exists rows,
        fst (pie_chart_handler Sqlite.strftime_m "3" march_db)
        = ok (PieChartBody rows)
        /\ Permutation rows [(Some "Electronics", 1); (Some "Books", 1)]).
Proof.
  apply (march_example 1 2 (Some "Phone") None None (Some "Atlas") None None
           march_table).
  apply Permutation_refl.
Defined.

(** ** The summary over no matching rows *)

(** C8, as the code has it.  For every valid month and every store in
    which no row matches the month (an empty table and a table not yet
    created among them): when the database can be read, that is, the
    table exists and the handle is open, the statistics route answers 200
    with [totalItems = 0] and with the three [SUM] columns,
    [totalSaleAmount], [totalSoldItems] and [totalUnsoldItems], all
    NULL; when it cannot, as before the first ingestion has created the
    table, the route answers 500. *)
Theorem statistics_of_no_matching_rows
        (strftime_m : option string -> option string)
        (db : Db) (month : string) (m : Z) :
  1 <= m <= 12 ->
  Js.parseInt month = Some m ->
  where_month strftime_m (month_param m) (createTableQuery (products db))
  = [] ->
  statistics_handler strftime_m month db
  = (if can_read db
     then ok (StatsBody {| totalSaleAmount := None;
                           totalItems := 0;
                           totalSoldItems := None;
                           totalUnsoldItems := None |})
     else internal_server_error,
     [(StatisticsQuery, month_param m)]).
Proof.
  intros Hm Hparse Hnone.
  pose proof (validate_month_accepts month m Hparse Hm) as Hvalid.
  rewrite statistics_handler_route.
  unfold route, db_all, can_read. rewrite Hvalid.
  destruct (handle_open db); cbn [andb]; [|reflexivity].
  destruct (products db) as [table|]; [|reflexivity].
  cbn [createTableQuery] in Hnone.
  unfold statistics_query. rewrite Hnone. reflexivity.
Qed.

Lemma statistics_of_no_matching_rows_witness :
  statistics_handler Sqlite.strftime_m "4" march_db
  = (ok (StatsBody {| totalSaleAmount := None;
                      totalItems := 0;
                      totalSoldItems := None;
                      totalUnsoldItems := None |}),
     [(StatisticsQuery, "04")])
  /\ statistics_handler Sqlite.strftime_m "4" new_database
     = (internal_server_error, [(StatisticsQuery, "04")]).
Proof.
  split.
  - apply (statistics_of_no_matching_rows Sqlite.strftime_m march_db "4" 4).
    + lia.
    + reflexivity.
    + reflexivity.
  - apply (statistics_of_no_matching_rows Sqlite.strftime_m new_database
             "4" 4).
    + lia.
    + reflexivity.
    + reflexivity.
Defined.

(** C8, as stated, fails twice.  On the empty table the route does not
    answer with the sold and unsold counts at 0; and on the store whose
    table has not been created, which holds zero records as well, the
    route does not succeed at all but answers 500. *)
Lemma empty_store_counts_are_not_zero :
  ~ (exists stats,
        fst (statistics_handler Sqlite.strftime_m "3" empty_db)
        = ok (StatsBody stats)
        /\ totalItems stats = 0
        /\ totalSaleAmount stats = None
        /\ totalSoldItems stats = Some 0
        /\ totalUnsoldItems stats = Some 0)
  /\ record_count new_database = 0%nat
  /\ statistics_handler Sqlite.strftime_m "3" new_database
     = (internal_server_error, [(StatisticsQuery, "03")]).
Proof.
  split; [|split; reflexivity].
  intros (stats & Hres & _ & _ & Hsold & _).
  vm_compute in Hres.
  injection Hres as Hstats. subst stats.
  discriminate Hsold.
Qed.

(** ** Month validation *)

(** C5, as the code has it.  When [parseInt] of the month parameter is NaN
    or an integer outside 1..12, each of the three aggregation routes
    answers 400 with the invalid-month error and hands no statement to
    the database. *)
Theorem invalid_month_rejected_without_store_access
        (strftime_m : option string -> option string)
        (month : string) (db : Db) :
  (Js.parseInt month = None
   \/ exists n, Js.parseInt month = Some n /\ (n < 1 \/ 12 < n)) ->
  statistics_handler strftime_m month db = (invalid_month, [])
  /\ bar_chart_handler strftime_m month db = (invalid_month, [])
  /\ pie_chart_handler strftime_m month db = (invalid_month, []).
Proof.
  intros H.
  assert (Hvalid : validate_month month = None).
  { apply validate_month_rejects. intros m Hm.
    destruct H as [H | (n & H & Hn)]; rewrite H in Hm.
    - discriminate.
    - injection Hm as <-. exact Hn. }
  rewrite statistics_handler_route, bar_chart_handler_route,
    pie_chart_handler_route.
  rewrite !(route_invalid _ _ _ _ _ Hvalid). auto.
Qed.

Lemma invalid_month_rejected_without_store_access_witness :
  statistics_handler Sqlite.strftime_m "13" march_db = (invalid_month, [])
  /\ bar_chart_handler Sqlite.strftime_m "13" march_db = (invalid_month, [])
  /\ pie_chart_handler Sqlite.strftime_m "13" march_db = (invalid_month, []).
Proof.
  apply (invalid_month_rejected_without_store_access
           Sqlite.strftime_m "13" march_db).
  right. exists 13. split; [reflexivity | lia].
Defined.

(** C5, as stated, fails: ["3abc"] is not a number and ["12.5"] lies
    outside 1..12, yet the routes take them for months 3 and 12, answer
    200 and query the database. *)
Lemma non_numeric_month_reaches_the_store :
  decimal_numeral "3abc" = false
  /\ statistics_handler Sqlite.strftime_m "3abc" march_db
     <> (invalid_month, [])
  /\ statistics_handler Sqlite.strftime_m "3abc" march_db
     = (ok (StatsBody {| totalSaleAmount := Some (1100 # 1);
                         totalItems := 2;
                         totalSoldItems := Some 1;
                         totalUnsoldItems := Some 1 |}),
        [(StatisticsQuery, "03")])
  /\ bar_chart_handler Sqlite.strftime_m "3abc" march_db
     = (ok (BarChartBody [("101 - 200", 1); ("901-above", 1)]),
        [(BarChartQuery, "03")])
  /\ pie_chart_handler Sqlite.strftime_m "3abc" march_db
     = (ok (PieChartBody [(Some "Books", 1); (Some "Electronics", 1)]),
        [(PieChartQuery, "03")])
  /\ decimal_numeral "12.5" = false
  /\ snd (statistics_handler Sqlite.strftime_m "12.5" march_db)
     = [(StatisticsQuery, "12")].
Proof.
  split; [reflexivity|]. split; [discriminate|]. repeat split.
Qed.

(** ** The combined route *)

(** C6 on the code.  For month ["13"] the combined route answers 500
    "Internal server error", not the 400 its three sibling routes give for
    the same parameter; the database is not queried.  The same holds for
    the non-numeric ["abc"]. *)
Theorem combined_data_invalid_month_is_500
        (strftime_m : option string -> option string) (db : Db) :
  combined_data_handler strftime_m "13" db = (internal_server_error, [])
  /\ combined_data_handler strftime_m "abc" db = (internal_server_error, [])
  /\ statistics_handler strftime_m "13" db = (invalid_month, []).
Proof. repeat split. Qed.

(** ** The ingestion route *)

(** C7 on the code.  When the feed cannot be fetched the route still
    answers 200 with the confirmation message, and the database is left
    as it was; the answer is the same for every outcome of the fetch. *)
Theorem initialize_database_reports_success_on_failure (db : Db) :
  initialize_database_handler FetchFailed db
  = (ok (MessageBody "Database initialized with seed data"), db)
  /\ forall feed,
      fst (initialize_database_handler feed db)
      = ok (MessageBody "Database initialized with seed data").
Proof. split; reflexivity. Qed.

(** ** Price buckets *)

Lemma le_true (a b : Q) : (a <= b)%Q -> Sql.le a b = true.
Proof. intros H. apply Qle_bool_iff. exact H. Qed.

Lemma le_false (a b : Q) : (b < a)%Q -> Sql.le a b = false.
Proof.
  intros H. unfold Sql.le. destruct (Qle_bool a b) eqn:E; [|reflexivity].
  apply Qle_bool_iff in E. lra.
Qed.

Lemma lt_true (a b : Q) : (a < b)%Q -> Sql.lt a b = true.
Proof. intros H. unfold Sql.lt. fold (Sql.le b a). rewrite le_false; auto. Qed.

Lemma lt_false (a b : Q) : (b <= a)%Q -> Sql.lt a b = false.
Proof. intros H. unfold Sql.lt. fold (Sql.le b a). rewrite le_true; auto. Qed.

(** Settle every comparison of the goal from the bounds in context. *)
Ltac settle_guards :=
  repeat match goal with
    | |- context [Sql.le ?a ?b] =>
        first [ rewrite (le_true a b) by lra
              | rewrite (le_false a b) by lra ]
    | |- context [Sql.lt ?a ?b] =>
        first [ rewrite (lt_true a b) by lra
              | rewrite (lt_false a b) by lra ]
    end.

Ltac settle_guards_in H :=
  repeat match type of H with
    | context [Sql.le ?a ?b] =>
        first [ rewrite (le_true a b) in H by lra
              | rewrite (le_false a b) in H by lra ]
    | context [Sql.lt ?a ?b] =>
        first [ rewrite (lt_true a b) in H by lra
              | rewrite (lt_false a b) in H by lra ]
    end.

Lemma case_when_applies {A B : Type} (clauses : list ((A -> bool) * B))
      (x : A) (else_ : B) :
  (exists cond, In (cond, Sql.case_when clauses x else_) clauses
                /\ cond x = true)
  \/ (Sql.case_when clauses x else_ = else_
      /\ forall cond l, In (cond, l) clauses -> cond x = false).
Proof.
  induction clauses as [|[cond value] rest IH]; cbn [Sql.case_when].
  - right. split; [reflexivity|]. intros cond l [].
  - destruct (cond x) eqn:Hc.
    + left. exists cond. split; [left; reflexivity | exact Hc].
    + destruct IH as [(c & Hin & Hx) | (Helse & Hall)].
      * left. exists c. split; [right; exact Hin | exact Hx].
      * right. split; [exact Helse|].
        intros c l [Heq | Hin].
        -- injection Heq as <- _. exact Hc.
        -- exact (Hall c l Hin).
Qed.

(** The value of [priceRange] on each stretch of the price axis. *)
Lemma priceRange_intervals (x : Q) :
  ((x < 0)%Q -> priceRange (Some x) = "901-above")
  /\ ((0 <= x)%Q -> (x <= 100)%Q -> priceRange (Some x) = "0 - 100")
  /\ ((100 < x)%Q -> (x <= 200)%Q -> priceRange (Some x) = "101 - 200")
  /\ ((200 < x)%Q -> (x <= 300)%Q -> priceRange (Some x) = "201 - 300")
  /\ ((300 < x)%Q -> (x <= 400)%Q -> priceRange (Some x) = "301 - 400")
  /\ ((400 < x)%Q -> (x <= 500)%Q -> priceRange (Some x) = "401 - 500")
  /\ ((500 < x)%Q -> (x <= 600)%Q -> priceRange (Some x) = "501 - 600")
  /\ ((600 < x)%Q -> (x <= 700)%Q -> priceRange (Some x) = "601 - 700")
  /\ ((700 < x)%Q -> (x <= 800)%Q -> priceRange (Some x) = "701 - 800")
  /\ ((800 < x)%Q -> (x <= 900)%Q -> priceRange (Some x) = "801 - 900")
  /\ ((900 < x)%Q -> priceRange (Some x) = "901-above").
Proof.
  repeat split; intros;
    unfold priceRange, priceRange_clauses;
    cbn [Sql.case_when]; settle_guards; reflexivity.
Qed.

Lemma case_when_else {A B : Type} (clauses : list ((A -> bool) * B))
      (x : A) (else_ : B) :
  (forall cond l, In (cond, l) clauses -> cond x = false) ->
  Sql.case_when clauses x else_ = else_.
Proof.
  induction clauses as [|[cond value] rest IH]; cbn [Sql.case_when]; intros H.
  - reflexivity.
  - rewrite (H cond value (or_introl eq_refl)).
    apply IH. intros c l Hin. apply (H c l). right. exact Hin.
Qed.

Lemma price_regions (x : Q) :
  (0 <= x)%Q ->
  (x <= 100)%Q
  \/ ((100 < x)%Q /\ (x <= 200)%Q)
  \/ ((200 < x)%Q /\ (x <= 300)%Q)
  \/ ((300 < x)%Q /\ (x <= 400)%Q)
  \/ ((400 < x)%Q /\ (x <= 500)%Q)
  \/ ((500 < x)%Q /\ (x <= 600)%Q)
  \/ ((600 < x)%Q /\ (x <= 700)%Q)
  \/ ((700 < x)%Q /\ (x <= 800)%Q)
  \/ ((800 < x)%Q /\ (x <= 900)%Q)
  \/ (900 < x)%Q.
Proof. intros H. lra. Qed.

(** Within a known stretch, a WHEN clause whose condition holds carries
    the label [priceRange] returns. *)
Ltac clause_by_clause Hin Hc :=
  unfold priceRange_clauses in Hin; cbn [In] in Hin;
  repeat (destruct Hin as [Hin | Hin];
          [ injection Hin as <- <-; cbn beta in Hc; settle_guards_in Hc;
            first [ discriminate Hc | reflexivity ] | ]);
  destruct Hin.

(** C1.  For every non-negative price exactly one label of the [CASE]
    expression applies, namely the one [priceRange] returns, and it is
    the catch-all label precisely above 900; the boundary prices 100,
    200, ..., 900 take the lower bucket and 101 takes "101 - 200". *)
Theorem priceRange_partitions_nonnegative_prices (x : Q) :
  (0 <= x)%Q ->
  (clause_applies x (priceRange (Some x))
   /\ (forall label, clause_applies x label -> label = priceRange (Some x))
   /\ (priceRange (Some x) = "901-above" <-> (900 < x)%Q))
  /\ priceRange (Some 100%Q) = "0 - 100"
  /\ priceRange (Some 101%Q) = "101 - 200"
  /\ priceRange (Some 200%Q) = "101 - 200"
  /\ priceRange (Some 300%Q) = "201 - 300"
  /\ priceRange (Some 400%Q) = "301 - 400"
  /\ priceRange (Some 500%Q) = "401 - 500"
  /\ priceRange (Some 600%Q) = "501 - 600"
  /\ priceRange (Some 700%Q) = "601 - 700"
  /\ priceRange (Some 800%Q) = "701 - 800"
  /\ priceRange (Some 900%Q) = "801 - 900".
Proof.
  intros Hx.
  split; [|repeat split].
  destruct (priceRange_intervals x)
    as (_ & I1 & I2 & I3 & I4 & I5 & I6 & I7 & I8 & I9 & I10).
  split; [|split].
  - apply case_when_applies.
  - intros label [(cond & Hin & Hc) | (-> & Hall)].
    + destruct (price_regions x Hx)
        as [H | [[L H] | [[L H] | [[L H] | [[L H] | [[L H]
           | [[L H] | [[L H] | [[L H] | L]]]]]]]]].
      * rewrite (I1 Hx H). clause_by_clause Hin Hc.
      * rewrite (I2 L H). clause_by_clause Hin Hc.
      * rewrite (I3 L H). clause_by_clause Hin Hc.
      * rewrite (I4 L H). clause_by_clause Hin Hc.
      * rewrite (I5 L H). clause_by_clause Hin Hc.
      * rewrite (I6 L H). clause_by_clause Hin Hc.
      * rewrite (I7 L H). clause_by_clause Hin Hc.
      * rewrite (I8 L H). clause_by_clause Hin Hc.
      * rewrite (I9 L H). clause_by_clause Hin Hc.
      * rewrite (I10 L). clause_by_clause Hin Hc.
    + symmetry. apply case_when_else. exact Hall.
  - split; [|exact I10].
    intros Helse.
    destruct (price_regions x Hx)
      as [H | [[L H] | [[L H] | [[L H] | [[L H] | [[L H]
         | [[L H] | [[L H] | [[L H] | L]]]]]]]]];
      [ rewrite (I1 Hx H) in Helse | rewrite (I2 L H) in Helse
      | rewrite (I3 L H) in Helse | rewrite (I4 L H) in Helse
      | rewrite (I5 L H) in Helse | rewrite (I6 L H) in Helse
      | rewrite (I7 L H) in Helse | rewrite (I8 L H) in Helse
      | rewrite (I9 L H) in Helse | exact L ];
      discriminate Helse.
Qed.

Lemma priceRange_partitions_nonnegative_prices_witness :
  (0 <= 201 # 2)%Q
  /\ priceRange (Some (201 # 2)) = "101 - 200"
  /\ clause_applies (201 # 2) "101 - 200"
  /\ forall label, clause_applies (201 # 2) label -> label = "101 - 200".
Proof.
  assert (H : (0 <= 201 # 2)%Q) by (unfold Qle; simpl; lia).
  destruct (priceRange_partitions_nonnegative_prices (201 # 2) H)
    as ((Happ & Huniq & _) & _).
  split; [exact H|].
  split; [reflexivity|].
  split; [exact Happ | exact Huniq].
Defined.

(** ** What a group reports *)

Section GroupLookup.

Context {K : Type} (eqb ltb : K -> K -> bool).
Hypothesis eqb_eq : forall a b, eqb a b = true <-> a = b.
Hypothesis ltb_irrefl : forall a, ltb a a = false.
Hypothesis ltb_trans :
  forall a b c, ltb a b = true -> ltb b c = true -> ltb a c = true.
Hypothesis ltb_total :
  forall a b, eqb a b = false -> ltb a b = false -> ltb b a = true.

Lemma eqb_refl (a : K) : eqb a a = true.
Proof. apply eqb_eq. reflexivity. Qed.

Lemma itemCount_of_cons (k0 k : K) (n : Z) (rows : list (K * Z)) :
  itemCount_of eqb k0 ((k, n) :: rows)
  = (if eqb k0 k then n else 0) + itemCount_of eqb k0 rows.
Proof.
  unfold itemCount_of. cbn [filter fst].
  destruct (eqb k0 k); [rewrite itemCount_total_cons|]; reflexivity.
Qed.

Lemma itemCount_of_bump (k0 k : K) (groups : list (K * Z)) :
  itemCount_of eqb k0 (Sql.bump eqb ltb k groups)
  = itemCount_of eqb k0 groups + (if eqb k0 k then 1 else 0).
Proof.
  induction groups as [|[k' n] rest IH]; cbn [Sql.bump].
  - rewrite itemCount_of_cons. unfold itemCount_of. cbn.
    destruct (eqb k0 k); reflexivity.
  - destruct (eqb k k') eqn:Hkk'.
    + apply eqb_eq in Hkk'. subst k'.
      rewrite !itemCount_of_cons. destruct (eqb k0 k); lia.
    + destruct (ltb k k').
      * rewrite !itemCount_of_cons. destruct (eqb k0 k), (eqb k0 k'); lia.
      * rewrite !itemCount_of_cons, IH. lia.
Qed.

Lemma itemCount_of_fold (k0 : K) (keys : list K) (groups : list (K * Z)) :
  itemCount_of eqb k0
    (fold_left (fun g k => Sql.bump eqb ltb k g) keys groups)
  = itemCount_of eqb k0 groups + occurrences eqb k0 keys.
Proof.
  revert groups. unfold occurrences.
  induction keys as [|k keys IH]; intros groups; cbn [fold_left filter].
  - cbn. lia.
  - rewrite IH, itemCount_of_bump.
    destruct (eqb k0 k); cbn [List.length]; lia.
Qed.

(** Over all rows carrying key [k0], the grouped result counts the
    occurrences of [k0]. *)
Lemma itemCount_of_group_count (k0 : K) (keys : list K) :
  itemCount_of eqb k0 (Sql.group_count eqb ltb keys)
  = occurrences eqb k0 keys.
Proof.
  unfold Sql.group_count. rewrite itemCount_of_fold. reflexivity.
Qed.

Lemma bump_before (k0 k : K) (groups : list (K * Z)) :
  ltb k0 k = true ->
  Forall (key_before ltb k0) groups ->
  Forall (key_before ltb k0) (Sql.bump eqb ltb k groups).
Proof.
  intros Hk. induction 1 as [|[k' n] rest Hhd Htl IH]; cbn [Sql.bump].
  - constructor; [exact Hk | constructor].
  - destruct (eqb k k'); [|destruct (ltb k k')].
    + constructor; assumption.
    + constructor; [exact Hk|]. constructor; assumption.
    + constructor; assumption.
Qed.

Lemma bump_ascending (k : K) (groups : list (K * Z)) :
  ascending_keys ltb groups -> ascending_keys ltb (Sql.bump eqb ltb k groups).
Proof.
  induction 1 as [|[k' n] rest Hsorted IH Hhd]; cbn [Sql.bump].
  - constructor; constructor.
  - destruct (eqb k k') eqn:Heq; [|destruct (ltb k k') eqn:Hlt].
    + constructor; assumption.
    + constructor.
      * constructor; assumption.
      * constructor; [exact Hlt|].
        eapply Forall_impl; [|exact Hhd].
        intros row Hrow. cbn [fst] in *.
        exact (ltb_trans _ _ _ Hlt Hrow).
    + constructor; [exact IH|].
      apply (bump_before k' k rest); [|exact Hhd].
      apply ltb_total; assumption.
Qed.

Lemma bump_positive (k : K) (groups : list (K * Z)) :
  positive_counts groups -> positive_counts (Sql.bump eqb ltb k groups).
Proof.
  induction 1 as [|[k' n] rest Hhd Htl IH]; cbn [Sql.bump].
  - constructor; [cbn; lia | constructor].
  - cbn [snd] in Hhd.
    destruct (eqb k k'); [|destruct (ltb k k')].
    + constructor; [cbn; lia | exact Htl].
    + constructor; [cbn; lia|]. constructor; assumption.
    + constructor; assumption.
Qed.

Lemma group_count_invariant (keys : list K) :
  ascending_keys ltb (Sql.group_count eqb ltb keys)
  /\ positive_counts (Sql.group_count eqb ltb keys).
Proof.
  unfold Sql.group_count.
  assert (H : ascending_keys ltb [] /\ positive_counts (K := K) [])
    by (split; [apply SSorted_nil | apply Forall_nil]).
  revert H. generalize (@nil (K * Z)) as groups.
  induction keys as [|k keys IH]; intros groups [Hs Hp]; cbn [fold_left].
  - split; assumption.
  - apply IH. split; [apply bump_ascending | apply bump_positive]; assumption.
Qed.

Lemma itemCount_of_before (k0 : K) (rows : list (K * Z)) :
  Forall (key_before ltb k0) rows -> itemCount_of eqb k0 rows = 0.
Proof.
  induction 1 as [|[k n] rest Hhd Htl IH].
  - reflexivity.
  - rewrite itemCount_of_cons, IH. unfold key_before in Hhd. cbn [fst] in Hhd.
    destruct (eqb k0 k) eqn:Heq; [|reflexivity].
    apply eqb_eq in Heq. subst k. rewrite ltb_irrefl in Hhd. discriminate.
Qed.

(** In an ascending result a key has one row, so the row's count is the
    count reported under the key. *)
Lemma ascending_lookup (k0 : K) (n : Z) (rows : list (K * Z)) :
  ascending_keys ltb rows -> In (k0, n) rows -> itemCount_of eqb k0 rows = n.
Proof.
  induction 1 as [|[k m] rest Hsorted IH Hhd]; intros Hin.
  - destruct Hin.
  - rewrite itemCount_of_cons. destruct Hin as [Heq | Hin].
    + injection Heq as -> ->. rewrite eqb_refl.
      rewrite (itemCount_of_before k0 rest Hhd). lia.
    + rewrite (IH Hin).
      destruct (eqb k0 k) eqn:Heq; [|lia].
      apply eqb_eq in Heq. subst k.
      rewrite Forall_forall in Hhd. specialize (Hhd _ Hin).
      cbn [fst] in Hhd. rewrite ltb_irrefl in Hhd. discriminate.
Qed.

Lemma nonzero_lookup (k0 : K) (rows : list (K * Z)) :
  itemCount_of eqb k0 rows <> 0 -> exists n, In (k0, n) rows.
Proof.
  induction rows as [|[k m] rest IH]; intros Hne.
  - exfalso. apply Hne. reflexivity.
  - rewrite itemCount_of_cons in Hne.
    destruct (eqb k0 k) eqn:Heq.
    + apply eqb_eq in Heq. subst k. exists m. left. reflexivity.
    + destruct (IH Hne) as [n Hn]. exists n. right. exact Hn.
Qed.

(** GROUP BY with COUNT: a row [(k0, n)] is in the result exactly when
    [k0] occurs among the keys and [n] is the number of its
    occurrences. *)
Lemma group_count_row (k0 : K) (n : Z) (keys : list K) :
  In (k0, n) (Sql.group_count eqb ltb keys)
  <-> n = occurrences eqb k0 keys /\ 1 <= n.
Proof.
  destruct (group_count_invariant keys) as [Hs Hp].
  split.
  - intros Hin. split.
    + rewrite <- itemCount_of_group_count.
      symmetry. apply ascending_lookup; assumption.
    + unfold positive_counts in Hp. rewrite Forall_forall in Hp.
      exact (Hp _ Hin).
  - intros [Hn Hpos].
    destruct (nonzero_lookup k0 (Sql.group_count eqb ltb keys))
      as [n' Hn'].
    + rewrite itemCount_of_group_count. lia.
    + pose proof (ascending_lookup k0 n' _ Hs Hn') as Hcount.
      rewrite itemCount_of_group_count in Hcount.
      replace n with n' by lia. exact Hn'.
Qed.

Lemma occurrences_in (k0 : K) (keys : list K) :
  In k0 keys -> 1 <= occurrences eqb k0 keys.
Proof.
  intros Hin. unfold occurrences.
  assert (Hf : In k0 (filter (eqb k0) keys)).
  { apply filter_In. split; [exact Hin | apply eqb_refl]. }
  destruct (filter (eqb k0) keys); [destruct Hf | cbn [List.length]; lia].
Qed.

End GroupLookup.

(** ** The bytewise order on labels *)

Lemma ascii_compare_refl (a : ascii) : Ascii.compare a a = Eq.
Proof. unfold Ascii.compare. apply N.compare_refl. Qed.

Lemma ascii_compare_lt_trans (a b c : ascii) :
  Ascii.compare a b = Lt -> Ascii.compare b c = Lt -> Ascii.compare a c = Lt.
Proof.
  unfold Ascii.compare. rewrite !N.compare_lt_iff. apply N.lt_trans.
Qed.

Lemma string_compare_refl (s : string) : String.compare s s = Eq.
Proof.
  induction s as [|a s IH]; cbn [String.compare].
  - reflexivity.
  - rewrite ascii_compare_refl. exact IH.
Qed.

Lemma string_compare_lt_trans (s1 s2 s3 : string) :
  String.compare s1 s2 = Lt -> String.compare s2 s3 = Lt ->
  String.compare s1 s3 = Lt.
Proof.
  revert s2 s3.
  induction s1 as [|a s1 IH]; intros [|b s2] [|c s3];
    cbn [String.compare]; try congruence.
  destruct (Ascii.compare a b) eqn:Hab; try discriminate;
    destruct (Ascii.compare b c) eqn:Hbc; try discriminate; intros H12 H23.
  - apply Ascii.compare_eq_iff in Hab, Hbc. subst b c.
    rewrite ascii_compare_refl. exact (IH _ _ H12 H23).
  - apply Ascii.compare_eq_iff in Hab. subst b. rewrite Hbc. reflexivity.
  - apply Ascii.compare_eq_iff in Hbc. subst c. rewrite Hab. reflexivity.
  - rewrite (ascii_compare_lt_trans a b c Hab Hbc). reflexivity.
Qed.

Lemma string_ltb_irrefl (s : string) : String.ltb s s = false.
Proof. unfold String.ltb. rewrite string_compare_refl. reflexivity. Qed.

Lemma string_ltb_trans (a b c : string) :
  String.ltb a b = true -> String.ltb b c = true -> String.ltb a c = true.
Proof.
  unfold String.ltb.
  destruct (String.compare a b) eqn:Hab; try discriminate.
  destruct (String.compare b c) eqn:Hbc; try discriminate.
  rewrite (string_compare_lt_trans a b c Hab Hbc). reflexivity.
Qed.

Lemma string_ltb_total (a b : string) :
  String.eqb a b = false -> String.ltb a b = false -> String.ltb b a = true.
Proof.
  unfold String.ltb. intros Hne Hlt.
  rewrite (String.compare_antisym b a).
  destruct (String.compare a b) eqn:Hab; try discriminate.
  - apply String.compare_eq_iff in Hab. apply String.eqb_neq in Hne.
    contradiction.
  - reflexivity.
Qed.

(** A row of the histogram: the label occurs among the matching rows, and
    its [itemCount] is the number of matching rows with that label. *)
Lemma bar_chart_row (strftime_m : option string -> option string)
      (param : string) (table : list Product) (label : string) (n : Z) :
  In (label, n) (bar_chart_query strftime_m param table)
  <-> n = occurrences String.eqb label
            (map (fun row => priceRange (price row))
                 (where_month strftime_m param table))
      /\ 1 <= n.
Proof.
  unfold bar_chart_query.
  apply group_count_row.
  - exact String.eqb_eq.
  - exact string_ltb_irrefl.
  - exact string_ltb_trans.
  - exact string_ltb_total.
Qed.

(** ** Negative prices *)

(** C9.  A negative price meets no WHEN clause and takes the ELSE label
    "901-above".  Hence a row of the table that matches the month and has
    a negative price is counted there: the histogram has exactly one
    "901-above" row, and its [itemCount] is the number of matching rows
    whose label is "901-above", which is at least 1. *)
Theorem negative_price_counted_in_catch_all
        (strftime_m : option string -> option string)
        (param : string) (table : list Product) (row : Product) (x : Q) :
  In row table ->
  month_matches strftime_m param row = true ->
  price row = Some x ->
  (x < 0)%Q ->
  priceRange (price row) = "901-above"
  /\ (forall cond label, In (cond, label) priceRange_clauses ->
                         cond x = false)
  /\ exists n,
      In ("901-above", n) (bar_chart_query strftime_m param table)
      /\ n = occurrences String.eqb "901-above"
               (map (fun r => priceRange (price r))
                    (where_month strftime_m param table))
      /\ 1 <= n
      /\ forall n', In ("901-above", n')
                       (bar_chart_query strftime_m param table) -> n' = n.
Proof.
  intros Hin Hmatch Hprice Hneg.
  assert (Hlabel : priceRange (price row) = "901-above").
  { rewrite Hprice. exact (proj1 (priceRange_intervals x) Hneg). }
  split; [exact Hlabel|].
  split.
  { intros cond label Hc. unfold priceRange_clauses in Hc. cbn [In] in Hc.
    repeat (destruct Hc as [Hc | Hc];
            [ injection Hc as <- _; cbn beta; settle_guards; reflexivity | ]).
    destruct Hc. }
  set (keys := map (fun r => priceRange (price r))
                   (where_month strftime_m param table)).
  assert (Hkey : In "901-above" keys).
  { unfold keys. rewrite <- Hlabel.
    apply (in_map (fun r => priceRange (price r))).
    apply filter_In. split; assumption. }
  pose proof (occurrences_in String.eqb String.eqb_eq "901-above" keys Hkey)
    as Hpos.
  exists (occurrences String.eqb "901-above" keys).
  split; [|split; [reflexivity | split; [exact Hpos|]]].
  - apply bar_chart_row. split; [reflexivity | exact Hpos].
  - intros n' Hn'. apply bar_chart_row in Hn'. destruct Hn' as [-> _].
    reflexivity.
Qed.

Lemma negative_price_counted_in_catch_all_witness :
  priceRange (price refund) = "901-above"
  /\ In ("901-above", 2)
        (bar_chart_query Sqlite.strftime_m "03" (refund :: march_table)).
Proof.
  destruct (negative_price_counted_in_catch_all
              Sqlite.strftime_m "03" (refund :: march_table) refund (-5 # 1))
    as (Hlabel & _ & n & Hin & Hn & _).
  - left. reflexivity.
  - reflexivity.
  - reflexivity.
  - unfold Qlt. simpl. lia.
  - split; [exact Hlabel|].
    replace 2 with n by (rewrite Hn; reflexivity). exact Hin.
Defined.

(** ** The primary key *)

Lemma has_id_spec (i : Z) (table : list Product) :
  has_id i table = true <-> In i (map id table).
Proof.
  unfold has_id. rewrite existsb_exists, in_map_iff.
  split; intros (row & H1 & H2).
  - exists row. apply Z.eqb_eq in H2. split; [exact H2 | exact H1].
  - exists row. split; [exact H2 | apply Z.eqb_eq; exact H1].
Qed.

Lemma place_permutation (row : Product) (table : list Product) :
  Permutation (place row table) (row :: table).
Proof.
  induction table as [|r rest IH]; cbn [place].
  - apply Permutation_refl.
  - destruct (id row <? id r).
    + apply Permutation_refl.
    + eapply perm_trans; [apply perm_skip; exact IH | apply perm_swap].
Qed.

(** One insert: refused with the constraint error when the id is taken,
    and then the table is untouched; otherwise the row is added. *)
Lemma insertDataQuery_spec (table : list Product) (item : Product) :
  (In (id item) (map id table)
   /\ insertDataQuery table item = inl Sql.SQLITE_CONSTRAINT)
  \/ (~ In (id item) (map id table)
      /\ exists table',
          insertDataQuery table item = inr table'
          /\ Permutation table' (item :: table)).
Proof.
  unfold insertDataQuery.
  destruct (has_id (id item) table) eqn:H.
  - left. split; [apply has_id_spec; exact H | reflexivity].
  - right. split.
    + intros Hin. apply has_id_spec in Hin. congruence.
    + exists (place item table). split; [reflexivity|].
      apply place_permutation.
Qed.

Lemma insert_one_unique (table : list Product) (item : Product) :
  NoDup (map id table) -> NoDup (map id (insert_one table item)).
Proof.
  intros Hnd. unfold insert_one.
  destruct (insertDataQuery_spec table item)
    as [(_ & ->) | (Hfresh & t' & -> & Hperm)].
  - exact Hnd.
  - apply (Permutation_NoDup (l := map id (item :: table))).
    + apply Permutation_sym, Permutation_map. exact Hperm.
    + cbn [map]. constructor; assumption.
Qed.

Lemma insert_one_ids (table : list Product) (item : Product) (i : Z) :
  In i (map id (insert_one table item))
  <-> i = id item \/ In i (map id table).
Proof.
  unfold insert_one.
  destruct (insertDataQuery_spec table item)
    as [(Hold & ->) | (Hfresh & t' & -> & Hperm)].
  - split.
    + intros H. right. exact H.
    + intros [-> | H]; assumption.
  - split; intros H.
    + apply (Permutation_in _ (Permutation_map id Hperm)) in H.
      cbn [map] in H. destruct H as [<- | H]; [left | right]; auto.
    + apply (Permutation_in _ (Permutation_sym (Permutation_map id Hperm))).
      cbn [map]. destruct H as [-> | H]; [left | right]; auto.
Qed.

Lemma insert_all_unique (data table : list Product) :
  NoDup (map id table) -> NoDup (map id (insert_all data table)).
Proof.
  unfold insert_all.
  revert table.
  induction data as [|item data IH]; intros table Hnd; cbn [fold_left].
  - exact Hnd.
  - apply IH, insert_one_unique, Hnd.
Qed.

Lemma insert_all_ids (data table : list Product) (i : Z) :
  In i (map id (insert_all data table))
  <-> In i (map id table) \/ In i (map id data).
Proof.
  unfold insert_all.
  revert table.
  induction data as [|item data IH]; intros table; cbn [fold_left map In].
  - tauto.
  - rewrite IH, insert_one_ids. intuition congruence.
Qed.

(** When every id of the feed is already stored, ingestion changes
    nothing. *)
Lemma insert_all_noop (data table : list Product) :
  (forall item, In item data -> In (id item) (map id table)) ->
  insert_all data table = table.
Proof.
  unfold insert_all.
  induction data as [|item data IH]; intros H; cbn [fold_left].
  - reflexivity.
  - unfold insert_one at 2. unfold insertDataQuery.
    rewrite (proj2 (has_id_spec (id item) table) (H item (or_introl eq_refl))).
    apply IH. intros it Hit. apply H. right. exact Hit.
Qed.

Lemma initializeDatabase_unique (feed : Feed) (db : Db) :
  NoDup (ids db) -> NoDup (ids (initializeDatabase feed db)).
Proof.
  intros Hnd. destruct feed as [|data]; cbn [initializeDatabase].
  - exact Hnd.
  - destruct (handle_open db); [|exact Hnd].
    unfold ids. cbn [products].
    apply insert_all_unique.
    unfold ids in Hnd. destruct (products db); cbn [createTableQuery].
    + exact Hnd.
    + constructor.
Qed.

Lemma run_unique (events : list Event) (db : Db) :
  NoDup (ids db) -> NoDup (ids (run events db)).
Proof.
  unfold run. revert db.
  induction events as [|e events IH]; intros db Hnd; cbn [fold_left].
  - exact Hnd.
  - apply IH. destruct e as [|feed]; cbn [step].
    + exact Hnd.
    + apply initializeDatabase_unique. exact Hnd.
Qed.

(** C10.  Under [id INTEGER PRIMARY KEY] no two stored rows share an id,
    whatever sequence of process starts and ingestion calls the database
    file has seen.  When ingestion is run again with the same feed (its
    inserts executed in any order), every insert is refused with the
    constraint error, and the store, and so its record count, is what
    the first run left; this holds whether the second call comes after a
    restart or in the same process. *)
Theorem primary_key_keeps_ids_unique
        (events : list Event) (db : Db) (data data' : list Product) :
  Permutation data' data ->
  NoDup (ids (run events new_database))
  /\ let db1 := initializeDatabase (Fetched data) (connect db) in
     exists table,
       products db1 = Some table
       /\ (forall item, In item data' ->
                        insertDataQuery table item
                        = inl Sql.SQLITE_CONSTRAINT)
       /\ initializeDatabase (Fetched data') (connect db1) = db1
       /\ initializeDatabase (Fetched data') db1 = db1
       /\ record_count (initializeDatabase (Fetched data') (connect db1))
          = record_count db1.
Proof.
  intros Hperm. split.
  { apply run_unique. constructor. }
  cbn zeta.
  cbn [initializeDatabase connect handle_open products].
  set (table := insert_all data (createTableQuery (products db))).
  assert (Hstored : forall item, In item data' -> In (id item) (map id table)).
  { intros item Hin. unfold table. apply insert_all_ids. right.
    apply in_map. exact (Permutation_in _ Hperm Hin). }
  exists table. split; [reflexivity|]. split.
  { intros item Hin. unfold insertDataQuery.
    rewrite (proj2 (has_id_spec _ _) (Hstored item Hin)). reflexivity. }
  cbn [createTableQuery].
  rewrite (insert_all_noop data' table Hstored).
  repeat split.
Qed.

Lemma primary_key_keeps_ids_unique_witness :
  NoDup (ids (run [Ingest (Fetched march_table); Restart;
                   Ingest (Fetched (refund :: march_table))]
                  new_database))
  /\ record_count
       (initializeDatabase (Fetched (rev march_table))
          (connect (initializeDatabase (Fetched march_table) new_database)))
     = 2%nat.
Proof.
  destruct (primary_key_keeps_ids_unique
              [Ingest (Fetched march_table); Restart;
               Ingest (Fetched (refund :: march_table))]
              new_database march_table (rev march_table))
    as (Hunique & table & _ & _ & _ & _ & Hcount).
  - apply Permutation_sym, Permutation_rev.
  - split; [exact Hunique|]. exact Hcount.
Defined.


(** * Further properties of the code *)

(** ** The price ranges, interval by interval *)

(** X1.  [priceRange] by intervals, for every price: "0 - 100" is the
    closed interval from 0 to 100, each later label the interval open on
    the left and closed on the right, and "901-above" takes what is left,
    the prices above 900 and the negative ones; a NULL price takes
    "901-above" too. *)
Theorem priceRange_by_interval (x : Q) :
  (priceRange (Some x) = "0 - 100" <-> (0 <= x)%Q /\ (x <= 100)%Q)
  /\ (priceRange (Some x) = "101 - 200" <-> (100 < x)%Q /\ (x <= 200)%Q)
  /\ (priceRange (Some x) = "201 - 300" <-> (200 < x)%Q /\ (x <= 300)%Q)
  /\ (priceRange (Some x) = "301 - 400" <-> (300 < x)%Q /\ (x <= 400)%Q)
  /\ (priceRange (Some x) = "401 - 500" <-> (400 < x)%Q /\ (x <= 500)%Q)
  /\ (priceRange (Some x) = "501 - 600" <-> (500 < x)%Q /\ (x <= 600)%Q)
  /\ (priceRange (Some x) = "601 - 700" <-> (600 < x)%Q /\ (x <= 700)%Q)
  /\ (priceRange (Some x) = "701 - 800" <-> (700 < x)%Q /\ (x <= 800)%Q)
  /\ (priceRange (Some x) = "801 - 900" <-> (800 < x)%Q /\ (x <= 900)%Q)
  /\ (priceRange (Some x) = "901-above" <-> (x < 0)%Q \/ (900 < x)%Q)
  /\ priceRange None = "901-above".
Proof.
  destruct (priceRange_intervals x)
    as (I0 & I1 & I2 & I3 & I4 & I5 & I6 & I7 & I8 & I9 & I10).
  assert (Hcases :
    (x < 0)%Q \/ ((0 <= x)%Q /\ (x <= 100)%Q)
    \/ ((100 < x)%Q /\ (x <= 200)%Q) \/ ((200 < x)%Q /\ (x <= 300)%Q)
    \/ ((300 < x)%Q /\ (x <= 400)%Q) \/ ((400 < x)%Q /\ (x <= 500)%Q)
    \/ ((500 < x)%Q /\ (x <= 600)%Q) \/ ((600 < x)%Q /\ (x <= 700)%Q)
    \/ ((700 < x)%Q /\ (x <= 800)%Q) \/ ((800 < x)%Q /\ (x <= 900)%Q)
    \/ (900 < x)%Q) by lra.
  repeat match goal with
         | |- _ /\ _ => split
         | |- _ <-> _ => split
         end;
    try reflexivity;
    try (intros [L H]; auto; fail);
    try (intros H;
         destruct Hcases
           as [N | [[L1 H1] | [[L2 H2] | [[L3 H3] | [[L4 H4] | [[L5 H5]
              | [[L6 H6] | [[L7 H7] | [[L8 H8] | [[L9 H9] | L10]]]]]]]]]];
         [ rewrite (I0 N) in H | rewrite (I1 L1 H1) in H
         | rewrite (I2 L2 H2) in H | rewrite (I3 L3 H3) in H
         | rewrite (I4 L4 H4) in H | rewrite (I5 L5 H5) in H
         | rewrite (I6 L6 H6) in H | rewrite (I7 L7 H7) in H
         | rewrite (I8 L8 H8) in H | rewrite (I9 L9 H9) in H
         | rewrite (I10 L10) in H ];
         first [ discriminate H | (split; assumption)
               | (left; assumption) | (right; assumption) ]).
  intros [N | L]; [exact (I0 N) | exact (I10 L)].
Qed.

(** ** The shape of grouped results *)

Section GroupShape.

Context {K : Type} (eqb ltb : K -> K -> bool).
Hypothesis eqb_eq : forall a b, eqb a b = true <-> a = b.
Hypothesis ltb_irrefl : forall a, ltb a a = false.
Hypothesis ltb_trans :
  forall a b c, ltb a b = true -> ltb b c = true -> ltb a c = true.
Hypothesis ltb_total :
  forall a b, eqb a b = false -> ltb a b = false -> ltb b a = true.

Lemma occurrences_positive_in (k : K) (keys : list K) :
  1 <= occurrences eqb k keys -> In k keys.
Proof.
  unfold occurrences. intros H.
  destruct (filter (eqb k) keys) as [|k' rest] eqn:Hf.
  - cbn in H. lia.
  - assert (Hin : In k' (filter (eqb k) keys)) by (rewrite Hf; left; reflexivity).
    apply filter_In in Hin. destruct Hin as [Hin Heq].
    apply eqb_eq in Heq. subst k'. exact Hin.
Qed.

Lemma ascending_keys_distinct (rows : list (K * Z)) :
  ascending_keys ltb rows -> NoDup (map fst rows).
Proof.
  induction 1 as [|row rest Hsorted IH Hhd]; cbn [map].
  - constructor.
  - constructor; [|exact IH].
    intros Hin. apply in_map_iff in Hin. destruct Hin as (r & Hfst & Hr).
    rewrite Forall_forall in Hhd. specialize (Hhd r Hr). cbn beta in Hhd.
    rewrite Hfst, ltb_irrefl in Hhd. discriminate.
Qed.

(** A grouped result lists each key of the input once, and no other. *)
Lemma group_count_keys (keys : list K) :
  NoDup (map fst (Sql.group_count eqb ltb keys))
  /\ forall k, In k (map fst (Sql.group_count eqb ltb keys)) <-> In k keys.
Proof.
  split.
  - apply ascending_keys_distinct.
    apply (group_count_invariant eqb ltb ltb_trans ltb_total).
  - intros k. rewrite in_map_iff. split.
    + intros ([k' n] & Hfst & Hin). cbn [fst] in Hfst. subst k'.
      apply (group_count_row eqb ltb eqb_eq ltb_irrefl ltb_trans ltb_total)
        in Hin.
      destruct Hin as [-> Hpos]. apply occurrences_positive_in. exact Hpos.
    + intros Hin. exists (k, occurrences eqb k keys). split; [reflexivity|].
      apply (group_count_row eqb ltb eqb_eq ltb_irrefl ltb_trans ltb_total).
      split; [reflexivity|]. apply occurrences_in; assumption.
Qed.

Lemma occurrences_map {A : Type} (f : A -> K) (k : K) (rows : list A) :
  occurrences eqb k (map f rows) = count_where (fun row => eqb k (f row)) rows.
Proof.
  unfold occurrences, count_where. f_equal.
  induction rows as [|row rows IH]; cbn [map filter].
  - reflexivity.
  - destruct (eqb k (f row)); cbn [List.length]; rewrite IH; reflexivity.
Qed.

End GroupShape.

(** ** The order on nullable text *)

Lemma text_eqb_eq (a b : option string) :
  Sql.text_eqb a b = true <-> a = b.
Proof.
  destruct a as [x|], b as [y|]; cbn [Sql.text_eqb].
  - rewrite String.eqb_eq. split; congruence.
  - split; discriminate.
  - split; discriminate.
  - split; reflexivity.
Qed.

Lemma text_ltb_irrefl (a : option string) : Sql.text_ltb a a = false.
Proof. destruct a; cbn; [apply string_ltb_irrefl | reflexivity]. Qed.

Lemma text_ltb_trans (a b c : option string) :
  Sql.text_ltb a b = true -> Sql.text_ltb b c = true ->
  Sql.text_ltb a c = true.
Proof.
  destruct a, b, c; cbn [Sql.text_ltb]; try discriminate; try reflexivity.
  apply string_ltb_trans.
Qed.

Lemma text_ltb_total (a b : option string) :
  Sql.text_eqb a b = false -> Sql.text_ltb a b = false ->
  Sql.text_ltb b a = true.
Proof.
  destruct a, b; cbn [Sql.text_eqb Sql.text_ltb];
    try discriminate; try reflexivity.
  apply string_ltb_total.
Qed.

Lemma priceRange_is_a_label (p : option Q) : In (priceRange p) priceRange_labels.
Proof.
  unfold priceRange, priceRange_labels. apply in_or_app.
  destruct p as [x|]; [|right; left; reflexivity].
  destruct (case_when_applies priceRange_clauses x priceRange_else)
    as [(cond & Hin & _) | (-> & _)].
  - left. apply in_map_iff. exists (cond, Sql.case_when priceRange_clauses x
                                                       priceRange_else).
    split; [reflexivity | exact Hin].
  - right. left. reflexivity.
Qed.

(** ** The histogram *)

(** X2.  The rows of the histogram, for any table and parameter: a label
    appears with count [n] exactly when [n] is the number of rows of the
    month whose price falls under the label and [n] is at least 1, so a
    bucket without rows is left out. *)
Theorem histogram_counts
        (strftime_m : option string -> option string)
        (param : string) (table : list Product) (label : string) (n : Z) :
  In (label, n) (bar_chart_query strftime_m param table)
  <-> n = count_where
            (fun row => String.eqb label (priceRange (price row)))
            (where_month strftime_m param table)
      /\ 1 <= n.
Proof.
  rewrite bar_chart_row.
  rewrite (occurrences_map String.eqb (fun row => priceRange (price row))).
  reflexivity.
Qed.

(** X3.  The histogram never repeats a label, uses only the ten labels of
    the [CASE] expression, and so has at most ten rows. *)
Theorem histogram_shape
        (strftime_m : option string -> option string)
        (param : string) (table : list Product) :
  let rows := bar_chart_query strftime_m param table in
  NoDup (map fst rows)
  /\ incl (map fst rows) priceRange_labels
  /\ (List.length rows <= 10)%nat.
Proof.
  cbn zeta. unfold bar_chart_query.
  destruct (group_count_keys String.eqb String.ltb String.eqb_eq
              string_ltb_irrefl string_ltb_trans string_ltb_total
              (map (fun row => priceRange (price row))
                   (where_month strftime_m param table)))
    as [Hnodup Hkeys].
  assert (Hincl : incl (map fst
                     (Sql.group_count String.eqb String.ltb
                        (map (fun row => priceRange (price row))
                             (where_month strftime_m param table))))
                  priceRange_labels).
  { intros label Hin. apply Hkeys in Hin. apply in_map_iff in Hin.
    destruct Hin as (row & <- & _). apply priceRange_is_a_label. }
  split; [exact Hnodup|]. split; [exact Hincl|].
  rewrite <- (length_map fst).
  change 10%nat with (List.length priceRange_labels).
  apply NoDup_incl_length; assumption.
Qed.

(** ** The category breakdown *)

(** X4.  The rows of the category breakdown: a category (NULL counts as
    one) appears with count [n] exactly when [n] is the number of rows of
    the month in that category and is at least 1; no category is listed
    twice. *)
Theorem breakdown_counts
        (strftime_m : option string -> option string)
        (param : string) (table : list Product) :
  (forall (c : option string) (n : Z),
      In (c, n) (pie_chart_query strftime_m param table)
      <-> n = count_where (fun row => Sql.text_eqb c (category row))
                (where_month strftime_m param table)
          /\ 1 <= n)
  /\ NoDup (map fst (pie_chart_query strftime_m param table)).
Proof.
  unfold pie_chart_query. split.
  - intros c n.
    rewrite (group_count_row Sql.text_eqb Sql.text_ltb text_eqb_eq
               text_ltb_irrefl text_ltb_trans text_ltb_total).
    rewrite (occurrences_map Sql.text_eqb category). reflexivity.
  - apply (group_count_keys Sql.text_eqb Sql.text_ltb text_eqb_eq
             text_ltb_irrefl text_ltb_trans text_ltb_total).
Qed.

(** ** The summary row *)

Lemma sum_terms (term : Product -> option Z) (p : Product -> bool)
      (rows : list Product) (a : Z) :
  (forall row, term row = Some (if p row then 1 else 0)) ->
  Sql.sum Z.add (Some a) (map term rows) = Some (a + count_where p rows).
Proof.
  intros Hterm. unfold count_where. revert a.
  induction rows as [|row rows IH]; intros a; cbn [map Sql.sum filter].
  - f_equal. cbn. lia.
  - rewrite Hterm, IH. f_equal.
    destruct (p row); cbn [List.length]; lia.
Qed.

Lemma sum_terms_nonempty (term : Product -> option Z) (p : Product -> bool)
      (rows : list Product) :
  (forall row, term row = Some (if p row then 1 else 0)) ->
  rows <> [] ->
  Sql.sum Z.add None (map term rows) = Some (count_where p rows).
Proof.
  intros Hterm Hne. destruct rows as [|row rows]; [contradiction|].
  cbn [map Sql.sum]. rewrite Hterm, (sum_terms term p rows _ Hterm).
  f_equal. unfold count_where. cbn [filter].
  destruct (p row); cbn [List.length]; lia.
Qed.

Lemma count_where_split (rows : list Product) :
  count_where is_sold rows + count_where is_unsold rows
  + count_where sold_unknown rows
  = Z.of_nat (List.length rows).
Proof.
  unfold count_where, is_sold, is_unsold, sold_unknown.
  induction rows as [|row rows IH]; cbn [filter List.length].
  - reflexivity.
  - destruct (sold row) as [[|]|]; cbn [List.length]; lia.
Qed.

Lemma sold_term_spec (row : Product) :
  sold_term row = Some (if is_sold row then 1 else 0).
Proof. unfold sold_term, is_sold. destruct (sold row) as [[|]|]; reflexivity. Qed.

Lemma unsold_term_spec (row : Product) :
  unsold_term row = Some (if is_unsold row then 1 else 0).
Proof.
  unfold unsold_term, is_unsold. destruct (sold row) as [[|]|]; reflexivity.
Qed.

(** X5.  When at least one row matches the month, the summary reports the
    number of rows with [sold] true and the number with [sold] false, and
    these two add up to [totalItems] less the rows whose [sold] is NULL;
    so they add up to [totalItems] only if every matching row carries a
    sale flag. *)
Theorem summary_sold_and_unsold
        (strftime_m : option string -> option string)
        (param : string) (table : list Product) :
  where_month strftime_m param table <> [] ->
  let rows := where_month strftime_m param table in
  let stats := statistics_query strftime_m param table in
  totalSoldItems stats = Some (count_where is_sold rows)
  /\ totalUnsoldItems stats = Some (count_where is_unsold rows)
  /\ count_where is_sold rows + count_where is_unsold rows
     = totalItems stats - count_where sold_unknown rows
  /\ 1 <= totalItems stats.
Proof.
  intros Hne rows stats. subst rows stats.
  unfold statistics_query. cbn [totalSoldItems totalUnsoldItems totalItems].
  rewrite (sum_terms_nonempty sold_term is_sold _ sold_term_spec Hne).
  rewrite (sum_terms_nonempty unsold_term is_unsold _ unsold_term_spec Hne).
  pose proof (count_where_split (where_month strftime_m param table)).
  unfold Sql.count.
  repeat split; try lia.
  destruct (where_month strftime_m param table); [contradiction|].
  cbn [List.length]. lia.
Qed.

Lemma summary_sold_and_unsold_witness :
  let stats := statistics_query Sqlite.strftime_m "03" sample_feed in
  totalItems stats = 4
  /\ totalSoldItems stats = Some 2
  /\ totalUnsoldItems stats = Some 1.
Proof.
  destruct (summary_sold_and_unsold Sqlite.strftime_m "03" sample_feed)
    as (Hsold & Hunsold & _ & _).
  - discriminate.
  - cbn zeta. split; [reflexivity|]. split; [exact Hsold | exact Hunsold].
Defined.

Lemma sum_prices (rows : list Product) (a : Q) :
  exists q, Sql.sum Qplus (Some a) (map price rows) = Some q
            /\ (q == a + price_total rows)%Q.
Proof.
  revert a.
  induction rows as [|row rows IH]; intros a; cbn [map Sql.sum price_total
                                                   fold_right].
  - exists a. split; [reflexivity | ring].
  - destruct (price row) as [x|].
    + destruct (IH (a + x)%Q) as (q & Hq & Heq).
      exists q. split; [exact Hq|].
      rewrite Heq. unfold price_total. ring.
    + apply IH.
Qed.

Lemma whole_prices_total (bound : Z) (rows : list Product) :
  0 <= bound ->
  Forall (whole_price bound) rows ->
  exists k, (price_total rows == inject_Z k)%Q
            /\ Z.abs k <= Z.of_nat (List.length rows) * bound.
Proof.
  intros Hbound.
  induction 1 as [|row rows Hrow _ IH]; cbn [price_total fold_right].
  - exists 0. split; [reflexivity | cbn; lia].
  - destruct IH as (k & Hk & Habs).
    fold (price_total rows). unfold whole_price in Hrow.
    destruct (price row) as [x|].
    + destruct Hrow as (kx & -> & Hkx).
      exists (kx + k). split.
      * rewrite Hk, inject_Z_plus. reflexivity.
      * cbn [List.length]. lia.
    + exists k. split; [exact Hk|]. cbn [List.length]. lia.
Qed.

(** X6.  [totalSaleAmount] is NULL exactly when no row of the month has a
    price (no row at all, or only NULL prices).  When the prices of the
    month are whole numbers small enough that no sum of them exceeds
    2^53 in size, where adding doubles is exact, it is the sum of the
    prices present, the rows without a price being passed over. *)
Theorem summary_totalSaleAmount
        (strftime_m : option string -> option string)
        (param : string) (table : list Product) (bound : Z) :
  let rows := where_month strftime_m param table in
  let amount := totalSaleAmount (statistics_query strftime_m param table) in
  (amount = None <-> forall row, In row rows -> price row = None)
  /\ (0 <= bound ->
      Forall (whole_price bound) rows ->
      Z.of_nat (List.length rows) * bound <= 2 ^ 53 ->
      forall q, amount = Some q ->
                (q == price_total rows)%Q
                /\ exists k, (q == inject_Z k)%Q /\ Z.abs k <= 2 ^ 53).
Proof.
  cbn zeta. unfold statistics_query. cbn [totalSaleAmount].
  set (rows := where_month strftime_m param table).
  assert (Hsum :
    match Sql.sum Qplus None (map price rows) with
    | None => forall row, In row rows -> price row = None
    | Some q =>
        (q == price_total rows)%Q
        /\ exists row, In row rows /\ price row <> None
    end).
  { clearbody rows.
    induction rows as [|row rows IH]; cbn [map Sql.sum].
    - intros row [].
    - destruct (price row) as [x|] eqn:Hprice.
      + destruct (sum_prices rows x) as (q & -> & Heq).
        split.
        * rewrite Heq. unfold price_total. cbn [fold_right].
          rewrite Hprice. reflexivity.
        * exists row. split; [left; reflexivity | congruence].
      + destruct (Sql.sum Qplus None (map price rows)) as [q|].
        * destruct IH as (Heq & r & Hin & Hr). split.
          -- rewrite Heq. unfold price_total. cbn [fold_right].
             rewrite Hprice. reflexivity.
          -- exists r. split; [right; exact Hin | exact Hr].
        * intros r [<- | Hin]; [exact Hprice | exact (IH r Hin)]. }
  destruct (Sql.sum Qplus None (map price rows)) as [q|].
  - destruct Hsum as (Heq & r & Hin & Hr). split.
    + split; [discriminate|]. intros Hnone. elim Hr. exact (Hnone r Hin).
    + intros Hbound Hwhole Hsize q' Hq'. injection Hq' as <-.
      split; [exact Heq|].
      destruct (whole_prices_total bound rows Hbound Hwhole) as (k & Hk & Habs).
      exists k. split; [rewrite Heq; exact Hk | lia].
  - split.
    + split; [intros _; exact Hsum | reflexivity].
    + intros _ _ _ q' Hq'. discriminate Hq'.
Qed.

Lemma summary_totalSaleAmount_witness :
  exists q,
    totalSaleAmount (statistics_query Sqlite.strftime_m "03" sample_feed)
    = Some q
    /\ (q == 1250)%Q.
Proof.
  destruct (summary_totalSaleAmount Sqlite.strftime_m "03" sample_feed 950)
    as [_ Hsum].
  eexists. split; [reflexivity|].
  refine (proj1 (Hsum _ _ _ _ eq_refl)).
  - lia.
  - repeat constructor; cbn;
      first [ exact I
            | (exists 950; split; [reflexivity | lia])
            | (exists 150; split; [reflexivity | lia]) ].
  - apply Z.leb_le. vm_compute. reflexivity.
Defined.

(** ** The twelve months together *)

Lemma month_params_distinct : NoDup month_params.
Proof.
  unfold month_params. cbn.
  repeat (constructor; [cbn; intuition discriminate|]). constructor.
Qed.

Lemma indicator_total (s : string) (params : list string) :
  NoDup params ->
  total (map (fun p => if String.eqb s p then 1 else 0) params)
  = if existsb (String.eqb s) params then 1 else 0.
Proof.
  induction 1 as [|p params Hnotin Hnodup IH]; cbn [map total fold_right existsb].
  - reflexivity.
  - fold (total (map (fun p => if String.eqb s p then 1 else 0) params)).
    rewrite IH. destruct (String.eqb s p) eqn:Heq; cbn [orb]; [|lia].
    apply String.eqb_eq in Heq. subst p.
    destruct (existsb (String.eqb s) params) eqn:Hex; [|lia].
    apply existsb_exists in Hex. destruct Hex as (p & Hin & Hp).
    apply String.eqb_eq in Hp. subst p. contradiction.
Qed.

Lemma total_pointwise_add {A : Type} (f g : A -> Z) (xs : list A) :
  total (map (fun x => f x + g x) xs) = total (map f xs) + total (map g xs).
Proof.
  unfold total. induction xs as [|x xs IH]; cbn [map fold_right]; lia.
Qed.

Lemma row_in_one_month (strftime_m : option string -> option string)
      (row : Product) :
  total (map (fun param =>
                if month_matches strftime_m param row then 1 else 0)
             month_params)
  = if has_month strftime_m row then 1 else 0.
Proof.
  unfold has_month, month_matches.
  destruct (strftime_m (dateOfSale row)) as [s|].
  - apply indicator_total, month_params_distinct.
  - reflexivity.
Qed.

(** X7.  No row is counted under two months: over the twelve parameters
    the routes can bind, the [totalItems] of the summaries add up to the
    number of rows whose date yields one of the months "01" to "12", and
    so to at most the size of the table; rows with a NULL or unreadable
    date are in no month's summary. *)
Theorem months_partition_the_rows
        (strftime_m : option string -> option string)
        (table : list Product) :
  total (map (fun param =>
                totalItems (statistics_query strftime_m param table))
             month_params)
  = count_where (has_month strftime_m) table
  /\ count_where (has_month strftime_m) table
     <= Z.of_nat (List.length table).
Proof.
  split.
  - unfold statistics_query, Sql.count, count_where, where_month.
    cbn [totalItems].
    induction table as [|row table IH].
    + reflexivity.
    + cbn [filter].
      rewrite (map_ext _
                 (fun param =>
                    (if month_matches strftime_m param row then 1 else 0)
                    + Z.of_nat (List.length
                                  (filter (month_matches strftime_m param)
                                          table)))).
      2:{ intros param. destruct (month_matches strftime_m param row);
            cbn [List.length]; lia. }
      rewrite total_pointwise_add, IH, row_in_one_month.
      destruct (has_month strftime_m row); cbn [List.length]; lia.
  - unfold count_where. pose proof (filter_length_le (has_month strftime_m) table).
    lia.
Qed.

(** ** What the routes answer and what they bind *)

Lemma month_param_listed (m : Z) :
  1 <= m <= 12 -> In (month_param m) month_params.
Proof.
  intros Hm. unfold month_params.
  apply (in_map month_param). cbn [In]. lia.
Qed.

Lemma route_outcome {R : Type} (q : Query)
      (query : string -> list Product -> R) (to_body : R -> Body)
      (month : string) (db : Db) :
  match validate_month month with
  | None => route q query to_body month db = (invalid_month, [])
  | Some m =>
      1 <= m <= 12
      /\ snd (route q query to_body month db) = [(q, month_param m)]
      /\ if can_read db
         then exists table,
             readable db table
             /\ fst (route q query to_body month db)
                = ok (to_body (query (month_param m) table))
         else fst (route q query to_body month db) = internal_server_error
  end.
Proof.
  destruct (validate_month month) as [m|] eqn:Hvalid.
  - destruct (validate_month_range month m Hvalid) as [_ Hm].
    split; [exact Hm|].
    unfold route, db_all, can_read. rewrite Hvalid.
    destruct (handle_open db) eqn:Hopen; cbn [andb].
    + destruct (products db) as [table|] eqn:Htable.
      * split; [reflexivity|]. exists table. repeat split; assumption.
      * split; reflexivity.
    + split; reflexivity.
  - apply route_invalid. exact Hvalid.
Qed.

Lemma axios_get_outcome (handler : string -> Db -> Response * list Statement)
      (month : string) (db : Db) :
  snd (axios_get handler month db) = snd (handler month db)
  /\ fst (axios_get handler month db)
     = if (200 <=? status (fst (handler month db)))
          && (status (fst (handler month db)) <? 300)
       then Some (body (fst (handler month db)))
       else None.
Proof.
  unfold axios_get. destruct (handler month db) as [res log]. cbn [fst snd].
  destruct ((200 <=? status res) && (status res <? 300)); split; reflexivity.
Qed.

(** X8.  The status table of the routes, for every state of the
    database: an aggregation route answers 400 when the month is
    rejected, 200 when it is accepted and the database can be read, 500
    when it is accepted and the database cannot be read, and this for
    every parameter; for a parameter that is a plain path segment the
    combined route answers 200 in the second case and 500 in the other
    two, never 400. *)
Theorem status_of_every_route
        (strftime_m : option string -> option string)
        (month : string) (db : Db) :
  let expected :=
    match validate_month month with
    | None => 400
    | Some _ => if can_read db then 200 else 500
    end in
  status (fst (statistics_handler strftime_m month db)) = expected
  /\ status (fst (bar_chart_handler strftime_m month db)) = expected
  /\ status (fst (pie_chart_handler strftime_m month db)) = expected
  /\ (plain_segment month = true ->
      status (fst (combined_data_handler strftime_m month db))
      = if Z.eqb expected 200 then 200 else 500).
Proof.
  cbn zeta.
  pose proof (route_outcome StatisticsQuery (statistics_query strftime_m)
                StatsBody month db) as Hs.
  pose proof (route_outcome BarChartQuery (bar_chart_query strftime_m)
                BarChartBody month db) as Hb.
  pose proof (route_outcome PieChartQuery (pie_chart_query strftime_m)
                PieChartBody month db) as Hp.
  unfold combined_data_handler, axios_get.
  rewrite !statistics_handler_route, !bar_chart_handler_route,
    !pie_chart_handler_route.
  destruct (validate_month month) as [m|].
  - destruct Hs as (_ & _ & Hs), Hb as (_ & _ & Hb), Hp as (_ & _ & Hp).
    destruct (route StatisticsQuery _ _ month db) as [rs ls].
    destruct (route BarChartQuery _ _ month db) as [rb lb].
    destruct (route PieChartQuery _ _ month db) as [rp lp].
    cbn [fst] in *.
    destruct (can_read db).
    + destruct Hs as (? & _ & ->), Hb as (? & _ & ->), Hp as (? & _ & ->).
      repeat split.
    + subst rs rb rp. repeat split.
  - rewrite Hs, Hb, Hp. repeat split.
Qed.

Lemma status_of_every_route_witness :
  status (fst (combined_data_handler Sqlite.strftime_m "3rd" march_db)) = 200
  /\ status (fst (combined_data_handler Sqlite.strftime_m "13" march_db))
     = 500
  /\ status (fst (combined_data_handler Sqlite.strftime_m "3" new_database))
     = 500.
Proof.
  split; [|split].
  - exact (proj2 (proj2 (proj2
             (status_of_every_route Sqlite.strftime_m "3rd" march_db)))
             eq_refl).
  - exact (proj2 (proj2 (proj2
             (status_of_every_route Sqlite.strftime_m "13" march_db)))
             eq_refl).
  - exact (proj2 (proj2 (proj2
             (status_of_every_route Sqlite.strftime_m "3" new_database)))
             eq_refl).
Defined.

(** X9.  Whatever the month parameter, an aggregation route hands the
    database at most one statement, and the value bound to its
    placeholder is one of the twelve strings "01" to "12": the text of
    the request never reaches the database.  For a parameter that is a
    plain path segment the same holds of the combined route, with at
    most three statements. *)
Theorem routes_bind_only_months
        (strftime_m : option string -> option string)
        (month : string) (db : Db) :
  (forall q param,
      In (q, param)
         (snd (statistics_handler strftime_m month db)
          ++ snd (bar_chart_handler strftime_m month db)
          ++ snd (pie_chart_handler strftime_m month db)) ->
      In param month_params)
  /\ (List.length (snd (statistics_handler strftime_m month db)) <= 1)%nat
  /\ (List.length (snd (bar_chart_handler strftime_m month db)) <= 1)%nat
  /\ (List.length (snd (pie_chart_handler strftime_m month db)) <= 1)%nat
  /\ (plain_segment month = true ->
      (forall q param,
          In (q, param) (snd (combined_data_handler strftime_m month db)) ->
          In param month_params)
      /\ (List.length (snd (combined_data_handler strftime_m month db))
          <= 3)%nat).
Proof.
  pose proof (route_outcome StatisticsQuery (statistics_query strftime_m)
                StatsBody month db) as Hs.
  pose proof (route_outcome BarChartQuery (bar_chart_query strftime_m)
                BarChartBody month db) as Hb.
  pose proof (route_outcome PieChartQuery (pie_chart_query strftime_m)
                PieChartBody month db) as Hp.
  unfold combined_data_handler, axios_get.
  rewrite !statistics_handler_route, !bar_chart_handler_route,
    !pie_chart_handler_route.
  destruct (validate_month month) as [m|].
  - destruct Hs as (Hm & Hs & _), Hb as (_ & Hb & _), Hp as (_ & Hp & _).
    pose proof (month_param_listed m Hm) as Hlisted.
    destruct (route StatisticsQuery _ _ month db) as [rs ls].
    destruct (route BarChartQuery _ _ month db) as [rb lb].
    destruct (route PieChartQuery _ _ month db) as [rp lp].
    cbn [fst snd] in *. subst ls lb lp.
    assert (Hany : forall (log : list Statement) q param,
               In (q, param) log ->
               Forall (fun st => snd st = month_param m) log ->
               In param month_params).
    { intros log q param Hin Hall. rewrite Forall_forall in Hall.
      specialize (Hall _ Hin). cbn [snd] in Hall. rewrite Hall.
      exact Hlisted. }
    split.
    { intros q param Hin. apply (Hany _ q param Hin).
      repeat constructor. }
    split; [cbn; lia|]. split; [cbn; lia|]. split; [cbn; lia|].
    intros _.
    destruct ((200 <=? status rs) && (status rs <? 300));
      [destruct ((200 <=? status rb) && (status rb <? 300));
       [destruct ((200 <=? status rp) && (status rp <? 300))|]|];
      cbn [snd app List.length];
      (split; [intros q param Hin; apply (Hany _ q param Hin);
               repeat constructor | lia]).
  - rewrite Hs, Hb, Hp. cbn [fst snd status invalid_month].
    cbn. split; [intros q param []|].
    split; [lia|]. split; [lia|]. split; [lia|].
    intros _. split; [intros q param [] | lia].
Qed.

Lemma routes_bind_only_months_witness :
  In "12" month_params
  /\ (List.length
        (snd (combined_data_handler Sqlite.strftime_m "0xC.5" march_db))
      <= 3)%nat.
Proof.
  destruct (proj2 (proj2 (proj2 (proj2
              (routes_bind_only_months Sqlite.strftime_m "0xC.5" march_db))))
              eq_refl) as [Hbound Hlength].
  split; [|exact Hlength].
  apply (Hbound StatisticsQuery). left. reflexivity.
Defined.

(** ** The combined route on a readable database *)

(** X10.  For an accepted month that is a plain path segment, on a
    readable database, the combined route answers 200 with the three results the single routes give, runs
    the three queries in the order statistics, bar chart, pie chart with
    the same bound month, and the two charts' counts both add up to the
    summary's [totalItems]. *)
Theorem combined_data_on_success
        (strftime_m : option string -> option string)
        (table : list Product) (db : Db) (month : string) (m : Z) :
  1 <= m <= 12 ->
  Js.parseInt month = Some m ->
  plain_segment month = true ->
  readable db table ->
  let param := month_param m in
  let stats := statistics_query strftime_m param table in
  let bars := bar_chart_query strftime_m param table in
  let pie := pie_chart_query strftime_m param table in
  combined_data_handler strftime_m month db
  = (ok (CombinedBody (StatsBody stats) (BarChartBody bars)
                      (PieChartBody pie)),
     [(StatisticsQuery, param); (BarChartQuery, param);
      (PieChartQuery, param)])
  /\ body (fst (statistics_handler strftime_m month db)) = StatsBody stats
  /\ body (fst (bar_chart_handler strftime_m month db)) = BarChartBody bars
  /\ body (fst (pie_chart_handler strftime_m month db)) = PieChartBody pie
  /\ itemCount_total bars = totalItems stats
  /\ itemCount_total pie = totalItems stats.
Proof.
  intros Hm Hparse _ Hdb. cbn zeta.
  pose proof (validate_month_accepts month m Hparse Hm) as Hvalid.
  unfold combined_data_handler, axios_get.
  rewrite !statistics_handler_route, !bar_chart_handler_route,
    !pie_chart_handler_route.
  rewrite !(route_ok _ _ _ month m db table Hvalid Hdb).
  cbn [status ok fst snd body]. cbn [Z.leb Z.ltb Z.compare Pos.compare
                                      Pos.compare_cont andb app].
  repeat split.
  - apply bar_chart_query_total.
  - apply pie_chart_query_total.
Qed.

Lemma combined_data_on_success_witness :
  combined_data_handler Sqlite.strftime_m "3" march_db
  = (ok (CombinedBody
           (StatsBody {| totalSaleAmount := Some (1100 # 1);
                         totalItems := 2;
                         totalSoldItems := Some 1;
                         totalUnsoldItems := Some 1 |})
           (BarChartBody [("101 - 200", 1); ("901-above", 1)])
           (PieChartBody [(Some "Books", 1); (Some "Electronics", 1)])),
     [(StatisticsQuery, "03"); (BarChartQuery, "03"); (PieChartQuery, "03")]).
Proof.
  destruct (combined_data_on_success Sqlite.strftime_m march_table march_db
              "3" 3) as (H & _).
  - lia.
  - reflexivity.
  - reflexivity.
  - split; reflexivity.
  - exact H.
Defined.

(** ** The handle after ingestion *)

(** X11.  [initializeDatabase] closes the one database handle of the
    process.  After an ingestion whose fetch succeeded, every
    aggregation route answers an accepted month with 500 "Internal
    server error", the combined route (asked with a plain path segment)
    stops at its first request, and a further ingestion call changes
    nothing whatever its feed; once the
    process is started again the same request is answered with 200 from
    the ingested rows. *)
Theorem routes_fail_after_ingestion
        (strftime_m : option string -> option string)
        (db : Db) (data : list Product) (month : string) (m : Z) :
  handle_open db = true ->
  1 <= m <= 12 ->
  Js.parseInt month = Some m ->
  let db1 := initializeDatabase (Fetched data) db in
  let param := month_param m in
  statistics_handler strftime_m month db1
  = (internal_server_error, [(StatisticsQuery, param)])
  /\ bar_chart_handler strftime_m month db1
     = (internal_server_error, [(BarChartQuery, param)])
  /\ pie_chart_handler strftime_m month db1
     = (internal_server_error, [(PieChartQuery, param)])
  /\ (plain_segment month = true ->
      combined_data_handler strftime_m month db1
      = (internal_server_error, [(StatisticsQuery, param)]))
  /\ (forall feed, initializeDatabase feed db1 = db1)
  /\ exists table,
      products db1 = Some table
      /\ statistics_handler strftime_m month (connect db1)
         = (ok (StatsBody (statistics_query strftime_m param table)),
            [(StatisticsQuery, param)]).
Proof.
  intros Hopen Hm Hparse. cbn zeta.
  pose proof (validate_month_accepts month m Hparse Hm) as Hvalid.
  unfold combined_data_handler, axios_get.
  rewrite !statistics_handler_route, !bar_chart_handler_route,
    !pie_chart_handler_route.
  cbn [initializeDatabase]. rewrite Hopen.
  unfold route. rewrite Hvalid. unfold db_all, connect.
  cbn [handle_open products status internal_server_error fst snd].
  repeat split.
  - intros [|data']; reflexivity.
  - eexists. split; reflexivity.
Qed.

Lemma routes_fail_after_ingestion_witness :
  statistics_handler Sqlite.strftime_m "3"
    (initializeDatabase (Fetched march_table) new_database)
  = (internal_server_error, [(StatisticsQuery, "03")])
  /\ combined_data_handler Sqlite.strftime_m "3"
       (initializeDatabase (Fetched march_table) new_database)
     = (internal_server_error, [(StatisticsQuery, "03")]).
Proof.
  destruct (routes_fail_after_ingestion Sqlite.strftime_m new_database
              march_table "3" 3) as (Hs & _ & _ & Hc & _).
  - reflexivity.
  - lia.
  - reflexivity.
  - split; [exact Hs | exact (Hc eq_refl)].
Defined.

(** ** What ingestion stores *)

Lemma lookup_none_iff (i : Z) (table : list Product) :
  lookup i table = None <-> has_id i table = false.
Proof.
  unfold lookup, has_id.
  induction table as [|r rest IH]; cbn [find existsb].
  - split; reflexivity.
  - destruct (id r =? i); cbn [orb]; [split; discriminate | exact IH].
Qed.

Lemma lookup_place_other (i : Z) (row : Product) (table : list Product) :
  id row <> i -> lookup i (place row table) = lookup i table.
Proof.
  intros Hne. apply Z.eqb_neq in Hne. unfold lookup.
  induction table as [|r rest IH]; cbn [place find].
  - rewrite Hne. reflexivity.
  - destruct (id row <? id r); cbn [find].
    + rewrite Hne. reflexivity.
    + rewrite IH. reflexivity.
Qed.

Lemma lookup_place_new (row : Product) (table : list Product) :
  lookup (id row) table = None ->
  lookup (id row) (place row table) = Some row.
Proof.
  unfold lookup.
  induction table as [|r rest IH]; cbn [place find]; intros Hnone.
  - rewrite Z.eqb_refl. reflexivity.
  - destruct (id r =? id row) eqn:Hr; [discriminate|].
    destruct (id row <? id r); cbn [find].
    + rewrite Z.eqb_refl. reflexivity.
    + rewrite Hr. exact (IH Hnone).
Qed.

Lemma lookup_insert_one (i : Z) (table : list Product) (item : Product) :
  lookup i (insert_one table item)
  = match lookup i table with
    | Some r => Some r
    | None => if id item =? i then Some item else None
    end.
Proof.
  unfold insert_one, insertDataQuery.
  destruct (has_id (id item) table) eqn:Hhas.
  - destruct (lookup i table) as [r|] eqn:Hl; [reflexivity|].
    destruct (id item =? i) eqn:Hi; [|reflexivity].
    apply Z.eqb_eq in Hi. subst i.
    apply lookup_none_iff in Hl. congruence.
  - destruct (Z.eq_dec (id item) i) as [<- | Hne].
    + apply lookup_none_iff in Hhas.
      rewrite (lookup_place_new item table Hhas), Hhas, Z.eqb_refl.
      reflexivity.
    + rewrite (lookup_place_other i item table Hne).
      apply Z.eqb_neq in Hne. rewrite Hne.
      destruct (lookup i table); reflexivity.
Qed.

Lemma lookup_insert_all (i : Z) (data table : list Product) :
  lookup i (insert_all data table)
  = match lookup i table with
    | Some r => Some r
    | None => lookup i data
    end.
Proof.
  unfold insert_all. revert table.
  induction data as [|item data IH]; intros table; cbn [fold_left].
  - destruct (lookup i table); reflexivity.
  - rewrite IH, lookup_insert_one.
    destruct (lookup i table) as [r|]; [reflexivity|].
    unfold lookup at 2. cbn [find].
    destruct (id item =? i); reflexivity.
Qed.

Lemma insert_one_count (table : list Product) (item : Product) :
  (List.length table <= List.length (insert_one table item)
   <= S (List.length table))%nat.
Proof.
  unfold insert_one.
  destruct (insertDataQuery_spec table item)
    as [(_ & ->) | (_ & t' & -> & Hperm)].
  - lia.
  - rewrite (Permutation_length Hperm). cbn [List.length]. lia.
Qed.

Lemma insert_all_count (data table : list Product) :
  (List.length table <= List.length (insert_all data table)
   <= List.length table + List.length data)%nat.
Proof.
  unfold insert_all. revert table.
  induction data as [|item data IH]; intros table; cbn [fold_left List.length].
  - lia.
  - pose proof (IH (insert_one table item)).
    pose proof (insert_one_count table item). lia.
Qed.

(** X12.  Ingestion only adds: the row stored under an id before the
    call is the row stored under it afterwards, even when the feed
    brings a different record with that id; when the ids of the feed are
    safe integers, an id that was not stored gets the first record of
    the feed that carries it; and the number of rows grows by at most
    the length of the feed. *)
Theorem ingestion_never_overwrites (feed : Feed) (db : Db) (i : Z) :
  let before := createTableQuery (products db) in
  let after := createTableQuery (products (initializeDatabase feed db)) in
  (forall row, lookup i before = Some row -> lookup i after = Some row)
  /\ (match feed with
      | Fetched data => ids_safe data
      | FetchFailed => True
      end ->
      lookup i before = None ->
      lookup i after
      = match feed with
        | Fetched data => if handle_open db then lookup i data else None
        | FetchFailed => None
        end)
  /\ (record_count db <= record_count (initializeDatabase feed db)
      <= record_count db
         + match feed with
           | Fetched data => List.length data
           | FetchFailed => 0
           end)%nat.
Proof.
  cbn zeta.
  assert (Hcount : forall d : Db,
             record_count d = List.length (createTableQuery (products d))).
  { intros d. unfold record_count. destruct (products d); reflexivity. }
  rewrite !Hcount.
  destruct feed as [|data]; cbn [initializeDatabase].
  - repeat split; auto; lia.
  - destruct (handle_open db); cbn [products createTableQuery].
    + pose proof (lookup_insert_all i data (createTableQuery (products db)))
        as Hl.
      pose proof (insert_all_count data (createTableQuery (products db))).
      repeat split; try lia.
      * intros row Hrow. rewrite Hl, Hrow. reflexivity.
      * intros _ Hnone. rewrite Hl, Hnone. reflexivity.
    + repeat split; auto; lia.
Qed.

Lemma ingestion_never_overwrites_witness :
  lookup 7
    (createTableQuery
       (products (initializeDatabase (Fetched sample_feed) march_db)))
  = lookup 7 sample_feed
  /\ lookup 2
       (createTableQuery
          (products (initializeDatabase (Fetched sample_feed) march_db)))
     = Some (unsold_book 2 (Some "Atlas") None None).
Proof.
  destruct (ingestion_never_overwrites (Fetched sample_feed) march_db 7)
    as (_ & Hnew & _).
  destruct (ingestion_never_overwrites (Fetched sample_feed) march_db 2)
    as (Hold & _ & _).
  split.
  - apply Hnew; [repeat constructor | reflexivity].
  - apply Hold. reflexivity.
Defined.

Lemma insert_all_fresh (data table : list Product) :
  NoDup (map id data) ->
  (forall item, In item data -> ~ In (id item) (map id table)) ->
  Permutation (insert_all data table) (data ++ table).
Proof.
  unfold insert_all. revert table.
  induction data as [|item data IH]; intros table Hnodup Hfresh;
    cbn [fold_left app].
  - apply Permutation_refl.
  - cbn [map] in Hnodup. inversion Hnodup as [|? ? Hnotin Hrest]; subst.
    assert (Hone : Permutation (insert_one table item) (item :: table)).
    { unfold insert_one.
      destruct (insertDataQuery_spec table item)
        as [(Hold & _) | (_ & t' & -> & Hperm)].
      - exfalso. exact (Hfresh item (or_introl eq_refl) Hold).
      - exact Hperm. }
    eapply perm_trans.
    + apply IH; [exact Hrest|].
      intros it Hit Hin.
      apply (Permutation_in _ (Permutation_map id Hone)) in Hin.
      cbn [map In] in Hin. destruct Hin as [Heq | Hin].
      * apply Hnotin. rewrite Heq. apply in_map. exact Hit.
      * exact (Hfresh it (or_intror Hit) Hin).
    + eapply perm_trans.
      * apply Permutation_app_head. exact Hone.
      * apply Permutation_sym, Permutation_middle.
Qed.

Lemma filter_permutation {A : Type} (p : A -> bool) (l l' : list A) :
  Permutation l l' -> Permutation (filter p l) (filter p l').
Proof.
  induction 1 as [|x l l' _ IH|x y l|l l' l'' _ IH1 _ IH2]; cbn [filter].
  - apply Permutation_refl.
  - destruct (p x); [apply perm_skip|]; exact IH.
  - destruct (p x), (p y);
      first [apply perm_swap | apply Permutation_refl].
  - exact (perm_trans IH1 IH2).
Qed.

Lemma count_where_permutation {A : Type} (p : A -> bool) (l l' : list A) :
  Permutation l l' -> count_where p l = count_where p l'.
Proof.
  intros H. unfold count_where.
  rewrite (Permutation_length (filter_permutation p l l' H)). reflexivity.
Qed.

Lemma count_where_filter {A : Type} (p q : A -> bool) (l : list A) :
  count_where p (filter q l) = count_where (fun x => q x && p x) l.
Proof.
  unfold count_where. f_equal.
  induction l as [|x l IH]; cbn [filter].
  - reflexivity.
  - destruct (q x); cbn [filter andb]; [destruct (p x)|];
      cbn [List.length]; rewrite IH; reflexivity.
Qed.

(** X13.  A feed whose ids are safe integers, pairwise distinct and new
    to the store is taken in whole: after ingestion on an open handle the table holds
    the old rows and every record of the feed, once each, and the
    record count has grown by the length of the feed. *)
Theorem fresh_feed_is_stored_whole (db : Db) (data : list Product) :
  handle_open db = true ->
  ids_safe data ->
  NoDup (map id data) ->
  (forall item, In item data -> ~ In (id item) (ids db)) ->
  exists table,
    products (initializeDatabase (Fetched data) db) = Some table
    /\ Permutation table (data ++ createTableQuery (products db))
    /\ record_count (initializeDatabase (Fetched data) db)
       = (List.length data + record_count db)%nat.
Proof.
  intros Hopen _ Hnodup Hfresh.
  cbn [initializeDatabase]. rewrite Hopen.
  assert (Hperm : Permutation
                    (insert_all data (createTableQuery (products db)))
                    (data ++ createTableQuery (products db))).
  { apply insert_all_fresh; [exact Hnodup|].
    intros item Hin. specialize (Hfresh item Hin).
    unfold ids in Hfresh. destruct (products db); exact Hfresh. }
  eexists. split; [reflexivity|]. split; [exact Hperm|].
  unfold record_count at 1. cbn [products].
  rewrite (Permutation_length Hperm), length_app.
  unfold record_count. destruct (products db); reflexivity.
Qed.

Lemma fresh_feed_is_stored_whole_witness :
  record_count (initializeDatabase (Fetched march_table) new_database)
  = 2%nat.
Proof.
  destruct (fresh_feed_is_stored_whole new_database march_table)
    as (table & _ & _ & Hcount).
  - reflexivity.
  - repeat constructor.
  - cbn. repeat constructor; cbn; intuition discriminate.
  - intros item _ [].
  - exact Hcount.
Defined.

Lemma histogram_counts_aux
      (strftime_m : option string -> option string)
      (param : string) (table : list Product) (label : string) (n : Z) :
  In (label, n) (bar_chart_query strftime_m param table)
  <-> n = count_where
            (fun row => String.eqb label (priceRange (price row)))
            (where_month strftime_m param table)
      /\ 1 <= n.
Proof.
  rewrite bar_chart_row.
  rewrite (occurrences_map String.eqb (fun row => priceRange (price row))).
  reflexivity.
Qed.

(** ** From the feed to the answers *)

(** X14.  Ingest, restart, ask.  When a feed with pairwise distinct ids,
    all safe integers, is ingested into a new database and the process is started again,
    an accepted month is answered from the feed itself: [totalItems] is
    the number of feed records of that month, and the histogram lists a
    label with the number of feed records of that month under it,
    leaving out the labels with none. *)
Theorem answers_come_from_the_feed
        (strftime_m : option string -> option string)
        (data : list Product) (month : string) (m : Z) :
  ids_safe data ->
  NoDup (map id data) ->
  1 <= m <= 12 ->
  Js.parseInt month = Some m ->
  let db := connect (initializeDatabase (Fetched data) new_database) in
  let param := month_param m in
  exists stats rows,
    statistics_handler strftime_m month db
    = (ok (StatsBody stats), [(StatisticsQuery, param)])
    /\ totalItems stats = count_where (month_matches strftime_m param) data
    /\ bar_chart_handler strftime_m month db
       = (ok (BarChartBody rows), [(BarChartQuery, param)])
    /\ forall label n,
        In (label, n) rows
        <-> n = count_where
                  (fun row => month_matches strftime_m param row
                              && String.eqb label (priceRange (price row)))
                  data
            /\ 1 <= n.
Proof.
  intros _ Hnodup Hm Hparse. cbn zeta.
  pose proof (validate_month_accepts month m Hparse Hm) as Hvalid.
  assert (Hperm : Permutation (insert_all data []) data).
  { rewrite <- (app_nil_r data) at 2.
    apply insert_all_fresh; [exact Hnodup | intros item _ []]. }
  assert (Hdb : readable
                  (connect (initializeDatabase (Fetched data) new_database))
                  (insert_all data [])) by (split; reflexivity).
  rewrite statistics_handler_route, bar_chart_handler_route.
  rewrite !(route_ok _ _ _ month m _ _ Hvalid Hdb).
  eexists. eexists. split; [reflexivity|]. split; [|split; [reflexivity|]].
  - unfold statistics_query, Sql.count, where_month. cbn [totalItems].
    fold (count_where (month_matches strftime_m (month_param m))
                      (insert_all data [])).
    apply count_where_permutation. exact Hperm.
  - intros label n. rewrite histogram_counts_aux.
    unfold where_month. rewrite count_where_filter.
    rewrite (count_where_permutation _ _ _ Hperm). reflexivity.
Qed.

(** ** Reading the month parameter *)

Ltac eval_digit :=
  match goal with
  | |- context [Js.digit_value 10 ?c] =>
      let v := eval vm_compute in (Js.digit_value 10 c) in
      change (Js.digit_value 10 c) with v
  end.

Lemma digits_stop (tail : string) (acc : option Z) :
  ends_number tail = true -> Js.digits 10 tail acc = acc.
Proof.
  destruct tail as [|c rest]; cbn [ends_number Js.digits]; [reflexivity|].
  destruct (Js.digit_value 10 c); [discriminate | reflexivity].
Qed.

Lemma digits_of_uint_acc (d : Decimal.uint) (tail : string) (acc : positive) :
  ends_number tail = true ->
  Js.digits 10 (String.append (NilEmpty.string_of_uint d) tail)
            (Some (Z.pos acc))
  = Some (Z.pos (Pos.of_uint_acc d acc)).
Proof.
  intros Htail. revert acc.
  induction d as [|d IH|d IH|d IH|d IH|d IH|d IH|d IH|d IH|d IH|d IH];
    intros acc;
    cbn [NilEmpty.string_of_uint String.append Pos.of_uint_acc].
  1: exact (digits_stop tail _ Htail).
  all: cbn [Js.digits]; eval_digit; cbv iota beta;
    rewrite <- IH; do 2 f_equal; lia.
Qed.

Lemma digits_of_uint (d : Decimal.uint) (tail : string) :
  ends_number tail = true ->
  Js.digits 10 (String.append (NilEmpty.string_of_uint d) tail) (Some 0)
  = Some (Z.of_N (Pos.of_uint d)).
Proof.
  intros Htail.
  induction d as [|d IH|d IH|d IH|d IH|d IH|d IH|d IH|d IH|d IH|d IH];
    cbn [NilEmpty.string_of_uint String.append Pos.of_uint].
  1: exact (digits_stop tail _ Htail).
  1: cbn [Js.digits]; eval_digit; cbv iota beta; exact IH.
  all: cbn [Js.digits]; eval_digit; cbv iota beta; cbn [Z.of_N];
    rewrite <- (digits_of_uint_acc d tail _ Htail); reflexivity.
Qed.

Lemma digits_of_uint_start (d : Decimal.uint) (tail : string) :
  d <> Decimal.Nil ->
  ends_number tail = true ->
  Js.digits 10 (String.append (NilEmpty.string_of_uint d) tail) None
  = Some (Z.of_N (Pos.of_uint d)).
Proof.
  intros Hd Htail.
  destruct d; [contradiction|..];
    cbn [NilEmpty.string_of_uint String.append Pos.of_uint Js.digits];
    eval_digit; cbv iota beta.
  1: apply digits_of_uint; exact Htail.
  all: cbn [Z.of_N];
    rewrite <- (digits_of_uint_acc _ tail _ Htail); reflexivity.
Qed.

Ltac bits c :=
  destruct c as [[|] [|] [|] [|] [|] [|] [|] [|]].

(** Without a hexadecimal prefix the radix is 10 and nothing is
    stripped. *)
Lemma radix_is_decimal (s : string) :
  hex_prefix s = false ->
  match s with
  | String "0" (String "x" rest) => (16, rest)
  | String "0" (String "X" rest) => (16, rest)
  | _ => (10, s)
  end = (10, s).
Proof.
  destruct s as [|c1 [|c2 rest]]; [reflexivity | bits c1; reflexivity |].
  bits c1; try reflexivity.
  bits c2; try reflexivity; discriminate.
Qed.

Lemma parseInt_unsigned (s : string) :
  space_or_sign s = false ->
  hex_prefix s = false ->
  Js.parseInt s = option_map (Z.mul 1) (Js.digits 10 s None).
Proof.
  intros Hstart Hhex. unfold Js.parseInt.
  destruct s as [|c rest]; [reflexivity|].
  cbn [space_or_sign] in Hstart.
  apply orb_false_iff in Hstart. destruct Hstart as [Hstart Hminus].
  apply orb_false_iff in Hstart. destruct Hstart as [Hspace Hplus].
  cbn [Js.trim_start]. rewrite Hspace.
  assert (Hsign :
    match String c rest with
    | String "-" r => (-1, r)
    | String "+" r => (1, r)
    | _ => (1, String c rest)
    end = (1, String c rest)).
  { clear - Hplus Hminus. bits c; try reflexivity; discriminate. }
  rewrite Hsign. rewrite (radix_is_decimal _ Hhex). reflexivity.
Qed.

Lemma parseInt_negative (s : string) :
  hex_prefix s = false ->
  Js.parseInt (String "-" s) = option_map (Z.mul (-1)) (Js.digits 10 s None).
Proof.
  intros Hhex. unfold Js.parseInt. cbn [Js.trim_start].
  change (Js.is_white_space "-") with false. cbv iota.
  rewrite (radix_is_decimal _ Hhex). reflexivity.
Qed.

Lemma string_of_uint_start (d : Decimal.uint) (tail : string) :
  d <> Decimal.Nil ->
  ends_number tail = true ->
  space_or_sign (String.append (NilEmpty.string_of_uint d) tail) = false
  /\ hex_prefix (String.append (NilEmpty.string_of_uint d) tail) = false.
Proof.
  intros Hd Htail.
  assert (Hother : forall c s, Ascii.eqb c "0" = false ->
                               hex_prefix (String c s) = false).
  { intros c [|c2 rest] Hc; cbn [hex_prefix]; [reflexivity|].
    rewrite Hc. reflexivity. }
  destruct d as [|d|d|d|d|d|d|d|d|d|d]; [contradiction|..];
    cbn [NilEmpty.string_of_uint String.append];
    (split; [reflexivity|]);
    try (apply Hother; reflexivity).
  destruct d; cbn [NilEmpty.string_of_uint String.append]; try reflexivity.
  destruct tail as [|c2 rest]; [reflexivity|].
  cbn [ends_number] in Htail. cbn [hex_prefix].
  destruct (Js.digit_value 10 c2); [discriminate|].
  apply andb_true_iff in Htail. destruct Htail as [H1 H2].
  apply negb_true_iff in H1, H2. rewrite H1, H2. reflexivity.
Qed.

Lemma parseInt_decimal_tail (n : Z) (tail : string) :
  ends_number tail = true ->
  Js.parseInt (String.append (Js.toString (Some n)) tail) = Some n.
Proof.
  intros Htail.
  unfold Js.toString, NilZero.string_of_int, Z.to_int.
  destruct n as [|p|p].
  - cbn [NilZero.string_of_uint].
    destruct (string_of_uint_start (Decimal.D0 Decimal.Nil) tail)
      as [Hs Hh]; [discriminate | exact Htail |].
    rewrite (parseInt_unsigned _ Hs Hh).
    rewrite (digits_of_uint_start (Decimal.D0 Decimal.Nil) tail);
      [reflexivity | discriminate | exact Htail].
  - pose proof (DecimalPos.Unsigned.to_uint_nonnil p) as Hnil.
    assert (Hstr : NilZero.string_of_uint (Pos.to_uint p)
                   = NilEmpty.string_of_uint (Pos.to_uint p)).
    { destruct (Pos.to_uint p); [contradiction|..]; reflexivity. }
    rewrite Hstr.
    destruct (string_of_uint_start (Pos.to_uint p) tail Hnil Htail)
      as [Hs Hh].
    rewrite (parseInt_unsigned _ Hs Hh).
    rewrite (digits_of_uint_start _ tail Hnil Htail).
    rewrite DecimalPos.Unsigned.of_to. reflexivity.
  - pose proof (DecimalPos.Unsigned.to_uint_nonnil p) as Hnil.
    assert (Hstr : NilZero.string_of_uint (Pos.to_uint p)
                   = NilEmpty.string_of_uint (Pos.to_uint p)).
    { destruct (Pos.to_uint p); [contradiction|..]; reflexivity. }
    rewrite Hstr. cbn [String.append].
    destruct (string_of_uint_start (Pos.to_uint p) tail Hnil Htail)
      as [Hs Hh].
    rewrite (parseInt_negative _ Hh).
    rewrite (digits_of_uint_start _ tail Hnil Htail).
    rewrite DecimalPos.Unsigned.of_to. reflexivity.
Qed.

Lemma append_empty (s : string) : String.append s EmptyString = s.
Proof.
  induction s as [|c s IH]; cbn [String.append]; [|rewrite IH]; reflexivity.
Qed.

Lemma route_by_validation {R : Type} (q : Query)
      (query : string -> list Product -> R) (to_body : R -> Body)
      (month month' : string) (db : Db) :
  validate_month month = validate_month month' ->
  route q query to_body month db = route q query to_body month' db.
Proof. intros H. unfold route. rewrite H. reflexivity. Qed.

(** X15.  The validation of lines 105-110 looks no further than the
    leading number.  For a safe integer [n], a month parameter made of
    the decimal digits of [n], alone or followed by text that starts
    with neither a digit nor [x], is read as [n]: it is accepted exactly
    when [n] is between 1 and 12, and each aggregation route answers it
    as it answers the digits alone.  So "7", "7th" and "7.5" all select
    July. *)
Theorem parseInt_reads_the_leading_number
        (strftime_m : option string -> option string)
        (n : Z) (tail : string) (db : Db) :
  safe_integer n = true ->
  ends_number tail = true ->
  let digits := Js.toString (Some n) in
  let month := String.append digits tail in
  Js.parseInt month = Some n
  /\ validate_month month
     = (if (1 <=? n) && (n <=? 12) then Some n else None)
  /\ statistics_handler strftime_m month db
     = statistics_handler strftime_m digits db
  /\ bar_chart_handler strftime_m month db
     = bar_chart_handler strftime_m digits db
  /\ pie_chart_handler strftime_m month db
     = pie_chart_handler strftime_m digits db.
Proof.
  intros _ Htail. cbn zeta.
  pose proof (parseInt_decimal_tail n tail Htail) as Hparse.
  pose proof (parseInt_decimal_tail n EmptyString eq_refl) as Hparse0.
  rewrite append_empty in Hparse0.
  assert (Hsame : validate_month (String.append (Js.toString (Some n)) tail)
                  = validate_month (Js.toString (Some n))).
  { unfold validate_month. rewrite Hparse, Hparse0. reflexivity. }
  split; [exact Hparse|]. split.
  - unfold validate_month. rewrite Hparse.
    destruct (n <? 1) eqn:Hlo, (n >? 12) eqn:Hhi,
             (1 <=? n) eqn:Hlo', (n <=? 12) eqn:Hhi';
      cbn [orb andb]; try reflexivity; lia.
  - rewrite !statistics_handler_route, !bar_chart_handler_route,
      !pie_chart_handler_route.
    repeat split; apply route_by_validation; exact Hsame.
Qed.

Lemma parseInt_reads_the_leading_number_witness :
  Js.parseInt "7th" = Some 7
  /\ validate_month "12.5" = Some 12
  /\ statistics_handler Sqlite.strftime_m "3rd" march_db
     = statistics_handler Sqlite.strftime_m "3" march_db.
Proof.
  split; [|split].
  - exact (proj1 (parseInt_reads_the_leading_number Sqlite.strftime_m
                    7 "th" march_db eq_refl eq_refl)).
  - exact (proj1 (proj2 (parseInt_reads_the_leading_number Sqlite.strftime_m
                           12 ".5" march_db eq_refl eq_refl))).
  - exact (proj1 (proj2 (proj2 (parseInt_reads_the_leading_number
                                  Sqlite.strftime_m 3 "rd" march_db
                                  eq_refl eq_refl)))).
Defined.

Lemma answers_come_from_the_feed_witness :
  exists stats rows,
    statistics_handler Sqlite.strftime_m "3"
      (connect (initializeDatabase (Fetched march_table) new_database))
    = (ok (StatsBody stats), [(StatisticsQuery, "03")])
    /\ totalItems stats = 2
    /\ bar_chart_handler Sqlite.strftime_m "3"
         (connect (initializeDatabase (Fetched march_table) new_database))
       = (ok (BarChartBody rows), [(BarChartQuery, "03")])
    /\ In ("901-above", 1) rows.
Proof.
  destruct (answers_come_from_the_feed Sqlite.strftime_m march_table "3" 3)
    as (stats & rows & Hs & Htotal & Hb & Hrows).
  - repeat constructor.
  - cbn. repeat constructor; cbn; intuition discriminate.
  - lia.
  - reflexivity.
  - exists stats, rows. split; [exact Hs|]. split; [exact Htotal|].
    split; [exact Hb|]. apply Hrows. split; [reflexivity | lia].
Defined.

(** ** Over the life of the database file *)

Lemma step_keeps_rows (e : Event) (db : Db) (i : Z) (row : Product) :
  lookup i (createTableQuery (products db)) = Some row ->
  lookup i (createTableQuery (products (step db e))) = Some row.
Proof.
  intros Hrow. destruct e as [|[|data]]; cbn [step connect products
                                               initializeDatabase];
    try exact Hrow.
  destruct (handle_open db); [|exact Hrow].
  cbn [products createTableQuery].
  rewrite lookup_insert_all, Hrow. reflexivity.
Qed.

Lemma step_count (e : Event) (db : Db) :
  (record_count db <= record_count (step db e))%nat.
Proof.
  assert (Hcount : forall d : Db,
             record_count d = List.length (createTableQuery (products d))).
  { intros d. unfold record_count. destruct (products d); reflexivity. }
  rewrite !Hcount.
  destruct e as [|[|data]]; cbn [step connect initializeDatabase products];
    try lia.
  destruct (handle_open db); cbn [products createTableQuery]; [|lia].
  pose proof (insert_all_count data (createTableQuery (products db))). lia.
Qed.

(** X16.  The service never changes or deletes a stored record: through
    any sequence of process starts and ingestion calls, with any feeds,
    the row stored under an id stays the same row, and the record count
    never goes down. *)
Theorem stored_records_are_permanent
        (events : list Event) (db : Db) (i : Z) (row : Product) :
  lookup i (createTableQuery (products db)) = Some row ->
  lookup i (createTableQuery (products (run events db))) = Some row
  /\ (record_count db <= record_count (run events db))%nat.
Proof.
  unfold run. revert db.
  induction events as [|e events IH]; intros db Hrow; cbn [fold_left].
  - split; [exact Hrow | lia].
  - destruct (IH (step db e) (step_keeps_rows e db i row Hrow))
      as [Hkept Hcount].
    split; [exact Hkept|].
    pose proof (step_count e db). lia.
Qed.

Lemma stored_records_are_permanent_witness :
  lookup 2
    (createTableQuery
       (products
          (run [Restart; Ingest (Fetched sample_feed); Restart;
                Ingest FetchFailed]
               (initializeDatabase (Fetched march_table) new_database))))
  = Some (unsold_book 2 (Some "Atlas") None None).
Proof.
  apply (stored_records_are_permanent
           [Restart; Ingest (Fetched sample_feed); Restart;
            Ingest FetchFailed]
           (initializeDatabase (Fetched march_table) new_database) 2).
  reflexivity.
Defined.

(** ** The bound parameter against [strftime] *)

Lemma land_small (c : Z) : 0 <= c < 32768 -> Z.land c 32767 = c.
Proof.
  intros H. change 32767 with (Z.ones 15). rewrite Z.land_ones by lia.
  apply Z.mod_small. change (2 ^ 15) with 32768. lia.
Qed.

(** C integer division, which truncates towards zero. *)
Lemma quot_bounds (x y : Z) :
  0 < y ->
  (0 <= x -> y * Z.quot x y <= x < y * Z.quot x y + y)
  /\ (x <= 0 -> y * Z.quot x y - y < x <= y * Z.quot x y).
Proof.
  intros Hy. split; intros Hx.
  - rewrite Z.quot_div_nonneg by lia.
    pose proof (Z.div_mod x y ltac:(lia)) as H.
    pose proof (Z.mod_pos_bound x y Hy) as H'.
    set (q := y * (x / y)) in *. set (r := x mod y) in *.
    clearbody q r. lia.
  - assert (Hq : Z.quot x y = - ((- x) / y)).
    { rewrite <- (Z.opp_involutive x) at 1. rewrite Z.quot_opp_l by lia.
      rewrite Z.quot_div_nonneg by lia. reflexivity. }
    rewrite Hq.
    pose proof (Z.div_mod (- x) y ltac:(lia)) as H.
    pose proof (Z.mod_pos_bound (- x) y Hy) as H'.
    rewrite Z.mul_opp_r.
    set (q := y * (- x / y)) in *. set (r := (- x) mod y) in *.
    clearbody q r. lia.
Qed.

(** The month computed from a valid Julian day is a month of the year. *)
Lemma month_of_JD_range (iJD : Z) :
  Sqlite.validJulianDay iJD = true -> 1 <= Sqlite.month_of_JD iJD <= 12.
Proof.
  unfold Sqlite.validJulianDay. intros H.
  apply andb_true_iff in H. destruct H as [H1 H2].
  apply Z.leb_le in H1, H2.
  unfold Sqlite.month_of_JD.
  set (Z0 := Z.quot (iJD + 43200000) 86400000).
  assert (HZ0 : 0 <= Z0 <= 5373484).
  { pose proof (proj1 (quot_bounds (iJD + 43200000) 86400000 ltac:(lia))
                  ltac:(lia)) as H.
    fold Z0 in H. lia. }
  clearbody Z0.
  set (A0 := Z.quot (4 * Z0 - 7468865) 146097).
  assert (HA0 : -52 <= A0 <= 96).
  { destruct (quot_bounds (4 * Z0 - 7468865) 146097 ltac:(lia)) as [Hp Hn].
    fold A0 in Hp, Hn. lia. }
  clearbody A0.
  set (A04 := Z.quot A0 4).
  assert (HA04 : 4 * A04 - 4 < A0 < 4 * A04 + 4).
  { destruct (quot_bounds A0 4 ltac:(lia)) as [Hp Hn].
    fold A04 in Hp, Hn. lia. }
  clearbody A04.
  set (A := Z0 + 1 + A0 - A04).
  assert (HA : -100 <= A <= 5373600) by (unfold A; lia).
  clearbody A.
  set (B := A + 1524).
  assert (HB : 1424 <= B <= 5375124) by (unfold B; lia).
  clearbody B.
  set (C := Z.quot (20 * B - 2442) 7305).
  assert (HC : 7305 * C <= 20 * B - 2442 < 7305 * C + 7305).
  { pose proof (proj1 (quot_bounds (20 * B - 2442) 7305 ltac:(lia))
                  ltac:(lia)) as H.
    fold C in H. lia. }
  clearbody C.
  rewrite (land_small C) by lia.
  set (D := Z.quot (36525 * C) 100).
  assert (HD : 100 * D <= 36525 * C < 100 * D + 100).
  { pose proof (proj1 (quot_bounds (36525 * C) 100 ltac:(lia))
                  ltac:(lia)) as H.
    fold D in H. lia. }
  clearbody D.
  set (E := Z.quot ((B - D) * 10000) 306001).
  assert (HE : 4 <= E <= 15).
  { pose proof (proj1 (quot_bounds ((B - D) * 10000) 306001 ltac:(lia))
                  ltac:(lia)) as H.
    fold E in H. lia. }
  clearbody E.
  destruct (E <? 14) eqn:HE14;
    [apply Z.ltb_lt in HE14 | apply Z.ltb_ge in HE14]; lia.
Qed.

Ltac twelve m H :=
  assert (m = 1 \/ m = 2 \/ m = 3 \/ m = 4 \/ m = 5 \/ m = 6 \/ m = 7
          \/ m = 8 \/ m = 9 \/ m = 10 \/ m = 11 \/ m = 12) as H by lia;
  repeat (destruct H as [H | H]; [subst m|]); [..|subst m].

Lemma month_param_two_digits (m : Z) :
  1 <= m <= 12 -> month_param m = Sqlite.two_digits m.
Proof. intros Hm. twelve m H; reflexivity. Qed.

Lemma two_digits_injective (a b : Z) :
  1 <= a <= 12 -> 1 <= b <= 12 ->
  Sqlite.two_digits a = Sqlite.two_digits b -> a = b.
Proof.
  intros Ha Hb. twelve a H; twelve b H';
    intros Heq; first [reflexivity | discriminate Heq].
Qed.

Ltac ten k H :=
  assert (k = 0 \/ k = 1 \/ k = 2 \/ k = 3 \/ k = 4 \/ k = 5 \/ k = 6
          \/ k = 7 \/ k = 8 \/ k = 9) as H by lia;
  repeat (destruct H as [H | H]; [rewrite H|]); [..|rewrite H].

Lemma digit_of_decimal_digit (k : Z) :
  0 <= k <= 9 -> Sqlite.digit (decimal_digit k) = Some k.
Proof. intros Hk. ten k H; reflexivity. Qed.

Lemma get_two_digits (n : Z) (rest : string) (lo hi : Z) :
  0 <= n <= 99 -> lo <= n <= hi ->
  Sqlite.field 2 lo hi (String.append (Sqlite.two_digits n) rest)
  = Some (n, rest).
Proof.
  intros Hn Hrange.
  unfold Sqlite.field, Sqlite.two_digits.
  fold (decimal_digit (n / 10)). fold (decimal_digit (n mod 10)).
  cbn [String.append Sqlite.get_digits].
  rewrite !digit_of_decimal_digit
    by (Z.to_euclidean_division_equations; lia).
  replace (0 * 10 + n / 10) with (n / 10) by lia.
  replace (n / 10 * 10 + n mod 10) with n
    by (Z.to_euclidean_division_equations; lia).
  replace (lo <=? n) with true by (symmetry; apply Z.leb_le; lia).
  replace (n <=? hi) with true by (symmetry; apply Z.leb_le; lia).
  reflexivity.
Qed.

Lemma get_four_digits (y : Z) (rest : string) :
  0 <= y <= 9999 ->
  Sqlite.field 4 0 9999
    (String (decimal_digit (y / 1000))
       (String (decimal_digit (y / 100 mod 10))
          (String (decimal_digit (y / 10 mod 10))
             (String (decimal_digit (y mod 10)) rest))))
  = Some (y, rest).
Proof.
  intros Hy. unfold Sqlite.field. cbn [Sqlite.get_digits].
  rewrite !digit_of_decimal_digit
    by (Z.to_euclidean_division_equations; lia).
  replace (((0 * 10 + y / 1000) * 10 + y / 100 mod 10) * 10
           + y / 10 mod 10) with (y / 10)
    by (Z.to_euclidean_division_equations; lia).
  replace (y / 10 * 10 + y mod 10) with y
    by (Z.to_euclidean_division_equations; lia).
  replace (0 <=? y) with true by (symmetry; apply Z.leb_le; lia).
  replace (y <=? 9999) with true by (symmetry; apply Z.leb_le; lia).
  reflexivity.
Qed.

Lemma parse_iso_date (y mo d : Z) :
  0 <= y <= 9999 -> 1 <= mo <= 12 -> 1 <= d <= 31 ->
  Sqlite.parseDateOrTime (iso_date y mo d)
  = Some (Sqlite.mkDateTime y mo d None 0).
Proof.
  intros Hy Hmo Hd.
  unfold Sqlite.parseDateOrTime.
  assert (Hparse : Sqlite.parseYyyyMmDd (iso_date y mo d)
                   = Some (Sqlite.mkDateTime y mo d None 0)).
  { unfold Sqlite.parseYyyyMmDd, iso_date.
    assert (Hsign : forall k rest,
               0 <= k <= 9 ->
               match String (decimal_digit k) rest with
               | String "-" r => (true, r)
               | _ => (false, String (decimal_digit k) rest)
               end = (false, String (decimal_digit k) rest)).
    { intros k rest Hk. ten k H; reflexivity. }
    rewrite Hsign by (Z.to_euclidean_division_equations; lia).
    rewrite (get_four_digits y _ Hy).
    cbn [Sqlite.expect]. change (Ascii.eqb "-" "-") with true. cbv iota.
    rewrite (get_two_digits mo _ 1 12) by lia.
    cbn [Sqlite.expect]. change (Ascii.eqb "-" "-") with true. cbv iota.
    rewrite <- (append_empty (Sqlite.two_digits d)).
    rewrite (get_two_digits d _ 1 31) by lia.
    reflexivity. }
  rewrite Hparse. reflexivity.
Qed.

Lemma iso_date_in_range (y mo d : Z) :
  0 <= y <= 9999 -> 1 <= mo <= 12 -> 1 <= d <= 31 ->
  exists iJD,
    Sqlite.computeJD (Sqlite.mkDateTime y mo d None 0) = Some iJD
    /\ Sqlite.validJulianDay iJD = true.
Proof.
  intros Hy Hmo Hd. unfold Sqlite.computeJD.
  cbn [Sqlite.Y Sqlite.M Sqlite.D Sqlite.hms Sqlite.tz].
  replace (y <? -4713) with false by (symmetry; apply Z.ltb_ge; lia).
  replace (9999 <? y) with false by (symmetry; apply Z.ltb_ge; lia).
  cbn [orb]. unfold Sqlite.validJulianDay.
  destruct (mo <=? 2) eqn:Hfeb;
    [apply Z.leb_le in Hfeb | apply Z.leb_gt in Hfeb];
    (eexists; split; [reflexivity|]).
  - set (y' := y - 1). assert (Hy' : -1 <= y' <= 9998) by (unfold y'; lia).
    clearbody y'.
    set (A := Z.quot y' 100).
    assert (HA : 0 <= A <= 99 /\ 100 * A - 100 < y' < 100 * A + 100).
    { destruct (quot_bounds y' 100 ltac:(lia)) as [Hp Hn]. fold A in Hp, Hn.
      lia. }
    clearbody A.
    set (A4 := Z.quot A 4).
    assert (HA4 : 4 * A4 <= A < 4 * A4 + 4).
    { pose proof (proj1 (quot_bounds A 4 ltac:(lia)) ltac:(lia)) as H.
      fold A4 in H. lia. }
    clearbody A4.
    set (X1 := Z.quot (36525 * (y' + 4716)) 100).
    assert (HX1 : 100 * X1 <= 36525 * (y' + 4716) < 100 * X1 + 100).
    { pose proof (proj1 (quot_bounds (36525 * (y' + 4716)) 100 ltac:(lia))
                    ltac:(lia)) as H.
      fold X1 in H. lia. }
    clearbody X1.
    set (X2 := Z.quot (306001 * (mo + 12 + 1)) 10000).
    assert (HX2 : 10000 * X2 <= 306001 * (mo + 12 + 1) < 10000 * X2 + 10000).
    { pose proof (proj1 (quot_bounds (306001 * (mo + 12 + 1)) 10000
                           ltac:(lia)) ltac:(lia)) as H.
      fold X2 in H. lia. }
    clearbody X2.
    apply andb_true_iff. split; apply Z.leb_le; lia.
  - set (A := Z.quot y 100).
    assert (HA : 100 * A <= y < 100 * A + 100).
    { pose proof (proj1 (quot_bounds y 100 ltac:(lia)) ltac:(lia)) as H.
      fold A in H. lia. }
    clearbody A.
    set (A4 := Z.quot A 4).
    assert (HA4 : 4 * A4 <= A < 4 * A4 + 4).
    { pose proof (proj1 (quot_bounds A 4 ltac:(lia)) ltac:(lia)) as H.
      fold A4 in H. lia. }
    clearbody A4.
    set (X1 := Z.quot (36525 * (y + 4716)) 100).
    assert (HX1 : 100 * X1 <= 36525 * (y + 4716) < 100 * X1 + 100).
    { pose proof (proj1 (quot_bounds (36525 * (y + 4716)) 100 ltac:(lia))
                    ltac:(lia)) as H.
      fold X1 in H. lia. }
    clearbody X1.
    set (X2 := Z.quot (306001 * (mo + 1)) 10000).
    assert (HX2 : 10000 * X2 <= 306001 * (mo + 1) < 10000 * X2 + 10000).
    { pose proof (proj1 (quot_bounds (306001 * (mo + 1)) 10000
                           ltac:(lia)) ltac:(lia)) as H.
      fold X2 in H. lia. }
    clearbody X2.
    apply andb_true_iff. split; apply Z.leb_le; lia.
Qed.

Lemma days_in_month_le_31 (y mo : Z) : days_in_month y mo <= 31.
Proof.
  unfold days_in_month.
  destruct (mo =? 2); [destruct (leap_year y); lia|].
  destruct ((mo =? 4) || (mo =? 6) || (mo =? 9) || (mo =? 11)); lia.
Qed.

(** X17.  What the WHERE clause selects from date-only text.  For a row
    whose [dateOfSale] is a calendar date written [YYYY-MM-DD],
    [strftime('%m', dateOfSale)] is the month field, which is the very
    text the routes bind for that month; so the row is selected for an
    accepted month [m] exactly when the month of the date is [m],
    whatever the year and the day. *)
Theorem where_clause_selects_the_month (y mo d m : Z) (row : Product) :
  0 <= y <= 9999 ->
  1 <= mo <= 12 ->
  1 <= d <= days_in_month y mo ->
  1 <= m <= 12 ->
  dateOfSale row = Some (iso_date y mo d) ->
  Sqlite.strftime_m (dateOfSale row) = Some (month_param mo)
  /\ (month_matches Sqlite.strftime_m (month_param m) row = true
      <-> mo = m).
Proof.
  intros Hy Hmo Hd Hm Hdate.
  pose proof (days_in_month_le_31 y mo) as H31.
  assert (Hd' : 1 <= d <= 31) by lia.
  assert (Hmonth : Sqlite.strftime_m (dateOfSale row)
                   = Some (month_param mo)).
  { rewrite Hdate. unfold Sqlite.strftime_m.
    rewrite (parse_iso_date y mo d Hy Hmo Hd').
    destruct (iso_date_in_range y mo d Hy Hmo Hd') as (iJD & -> & ->).
    cbn [Sqlite.tz Sqlite.M]. cbn [Z.eqb].
    rewrite (month_param_two_digits mo Hmo). reflexivity. }
  split; [exact Hmonth|].
  unfold month_matches. rewrite Hmonth, String.eqb_eq.
  rewrite !month_param_two_digits by assumption.
  split.
  - apply two_digits_injective; assumption.
  - intros ->. reflexivity.
Qed.

Lemma where_clause_selects_the_month_witness :
  month_matches Sqlite.strftime_m "02"
    (unsold_book 5 None None None) = false
  /\ Sqlite.strftime_m (Some (iso_date 2024 2 29)) = Some "02".
Proof.
  split; [reflexivity|].
  exact (proj1 (where_clause_selects_the_month 2024 2 29 2
                  {| id := 9; title := None; price := None;
                     description := None; category := None; image := None;
                     sold := None;
                     dateOfSale := Some (iso_date 2024 2 29) |}
                  ltac:(lia) ltac:(lia) ltac:(cbn; lia) ltac:(lia)
                  eq_refl)).
Defined.
